(** * Lazy checkpoint loading: [lightning/fabric/utilities/load.py]

    A shallow embedding of the lazy-loading module: the placeholder class
    [_NotYetLoadedTensor], the unpickler hooks of [_LazyLoadingUnpickler]
    and [_materialize_tensors].  Python objects that the module mutates
    (the placeholders, whose [_load_tensor] attribute is reassigned by the
    rebuild hooks) live in an explicit heap; archive reads and warnings are
    recorded in the state, and exceptions are an error result that keeps
    the state reached so far. *)

From Stdlib Require Import ZArith Lia.
From stdpp Require Import base list strings.

Set Warnings "-register-all".

Local Open Scope Z_scope.
Local Open Scope string_scope.
Local Open Scope list_scope.

(** ** Plain data of the torch runtime *)

Inductive Dtype :=
| float32 | float64 | float16 | bfloat16
| int64 | int32 | int16 | int8 | uint8 | bool_.

(** [torch._utils._element_size]: bytes per element. *)
Definition _element_size (dtype : Dtype) : Z :=
  match dtype with
  | float32 => 4 | float64 => 8 | float16 => 2 | bfloat16 => 2
  | int64 => 8 | int32 => 4 | int16 => 2 | int8 => 1 | uint8 => 1 | bool_ => 1
  end.

(** The legacy typed storage classes a persistent id names; [cls().dtype]. *)
Inductive StorageClass :=
| FloatStorage | DoubleStorage | HalfStorage | BFloat16Storage
| LongStorage | IntStorage | ShortStorage | CharStorage | ByteStorage
| BoolStorage.

Definition storage_class_dtype (cls : StorageClass) : Dtype :=
  match cls with
  | FloatStorage => float32 | DoubleStorage => float64
  | HalfStorage => float16 | BFloat16Storage => bfloat16
  | LongStorage => int64 | IntStorage => int32 | ShortStorage => int16
  | CharStorage => int8 | ByteStorage => uint8 | BoolStorage => bool_
  end.

(** The device of a storage: the meta device holds no bytes; [accelerator]
    stands for any device other than the CPU that a location tag names. *)
Inductive Device := meta | cpu | accelerator (tag : string).

(** A Python dict whose contents the module never inspects (the pickled
    [state], [backward_hooks] and [metadata]). *)
Definition PyDict := list (string * string).

(** The persistent id of a storage:
    [(name, cls, fn, device, size)], [size] counting elements. *)
Record Pid := mkPid {
  pid_name : string;
  pid_cls : StorageClass;
  pid_fn : string;
  pid_device : string;
  pid_size : Z
}.

Definition UntypedStorage := list Byte.byte.

(** [torch.storage.TypedStorage], with the [archiveinfo] attribute that
    [persistent_load] attaches to it. *)
Record TypedStorage := mkTypedStorage {
  ts_dtype : Dtype;
  ts_device : Device;
  ts_untyped : UntypedStorage;
  ts_archiveinfo : option Pid
}.

Inductive TensorClass :=
| TensorT
| ParameterT
| SubclassT (qualname : string).

#[global] Instance TensorClass_eq_dec : EqDecision TensorClass.
Proof. solve_decision. Defined.

Record Tensor := mkTensor {
  t_class : TensorClass;
  t_storage : TypedStorage;
  t_storage_offset : Z;
  t_size : list Z;
  t_stride : list Z;
  t_requires_grad : bool;
  t_backward_hooks : PyDict;
  t_metadata : option PyDict;
  t_is_param : bool;
  t_dict : PyDict
}.

Definition t_dtype (t : Tensor) : Dtype := ts_dtype (t_storage t).
Definition t_device (t : Tensor) : Device := ts_device (t_storage t).

(** The positional tail of a [_rebuild_tensor_v2] call:
    [(storage_offset, size, stride, requires_grad, backward_hooks, metadata)]. *)
Record RebuildArgs := mkRebuildArgs {
  ra_storage_offset : Z;
  ra_size : list Z;
  ra_stride : list Z;
  ra_requires_grad : bool;
  ra_backward_hooks : PyDict;
  ra_metadata : option PyDict
}.

(** ** Python values *)

Definition Ref := nat.

(** The values the module handles.  [VOpaque] is an object of the class
    [cls] that is neither a mapping, a sequence nor a dataclass and holds no
    other value; [VObject] is such an object with attributes, [VSet] a set.
    A dict is kept as the list of its items, in insertion order. *)
Inductive Value :=
| VNone
| VBool (b : bool)
| VInt (z : Z)
| VStr (s : string)
| VDtype (d : Dtype)
| VPyDict (d : PyDict)
| VOpaque (cls repr : string)
| VStorage (s : TypedStorage)
| VTensor (t : Tensor)
| VBoundMethod (t : Tensor) (name : string)
| VNotYetLoaded (p : Ref)
| VTuple (items : list Value)
| VList (items : list Value)
| VDict (items : list (string * Value))
| VRange (start stop step : Z)
| VSet (items : list Value)
| VObject (cls : string) (attrs : list (string * Value)).

Inductive Exception :=
| AttributeError (msg : string)
| TypeError (msg : string)
| ValueError (msg : string)
| RuntimeError (msg : string)
| ReferenceError (msg : string).

Inductive Result (A : Type) :=
| Ok (a : A)
| Raise (e : Exception).
Arguments Ok {A} a.
Arguments Raise {A} e.

(** ** Warnings *)

Inductive Category :=
| Warning | UserWarning | DeprecationWarning | FutureWarning | RuntimeWarning.

Record PyWarning := mkWarning {
  w_category : Category;
  w_message : string
}.

(** The actions of a filter.  Those that differ only in how often a
    warning is repeated ([default], [once], [module], [always]) are one
    action here; turning warnings into errors is not modelled. *)
Inductive Action := ignore | always.

Record WarningFilter := mkFilter {
  wf_action : Action;
  wf_category : Category
}.

#[global] Instance Category_eq_dec : EqDecision Category.
Proof. solve_decision. Defined.
#[global] Instance Action_eq_dec : EqDecision Action.
Proof. solve_decision. Defined.
#[global] Instance WarningFilter_eq_dec : EqDecision WarningFilter.
Proof. solve_decision. Defined.

(** [issubclass(c, super)] on the warning categories: every category
    derives from [Warning]. *)
Definition issubclass (c super : Category) : bool :=
  match super with
  | Warning => true
  | _ => bool_decide (c = super)
  end.

(** ** The archive reader and the unpickler *)

Record ReadRequest := mkRead {
  rr_name : string;
  rr_nbytes : Z
}.

(** [torch.PyTorchFileReader] over a fixed archive:
    [get_storage_from_record(name, numel, UntypedStorage)]. *)
Record PyTorchFileReader := mkReader {
  get_storage_from_record : string -> Z -> Result UntypedStorage
}.

Record _LazyLoadingUnpickler := mkUnpickler {
  file_reader : PyTorchFileReader
}.

(** ** Placeholders and the heap *)

(** What the attribute [_load_tensor] of a placeholder can hold: the bound
    method of the class, or one of the closures that the rebuild hooks
    assign to the instance.  A closure captures the previous value
    [old_lt] and the arguments of the hook that built it. *)
Inductive Loader :=
| BoundMethod (self : Ref)
| FromTypeClosure (old_lt : Loader) (new_type : TensorClass) (state : PyDict)
| ParameterClosure (old_lt : Loader) (requires_grad : bool)
    (backward_hooks : PyDict).

(** An instance of [_NotYetLoadedTensor]: the four attributes set by
    [__init__] and the instance attribute [_load_tensor], absent until a
    rebuild hook assigns it. *)
Record _NotYetLoadedTensor := mkNotYetLoaded {
  metatensor : Tensor;
  archiveinfo : _LazyLoadingUnpickler;
  storageinfo : Pid;
  rebuild_args : RebuildArgs;
  _load_tensor_attr : option Loader
}.

Record World := mkWorld {
  heap : list _NotYetLoadedTensor;
  reads : list ReadRequest;
  filters : list WarningFilter;
  shown : list PyWarning
}.

(** ** The monad of effects: state and exceptions *)

Definition M (A : Type) : Type := World -> Result A * World.

Definition ret {A} (a : A) : M A := fun w => (Ok a, w).

Definition bind {A B} (m : M A) (k : A -> M B) : M B :=
  fun w => match m w with
           | (Ok a, w') => k a w'
           | (Raise e, w') => (Raise e, w')
           end.

Definition raise {A} (e : Exception) : M A := fun w => (Raise e, w).

Notation "'let*' x ':=' c1 'in' c2" := (bind c1 (fun x => c2))
  (at level 10, x name, c1 at level 100, c2 at level 200).
Notation "'do' c1 'then' c2" := (bind c1 (fun _ => c2))
  (at level 10, c1 at level 100, c2 at level 200).

Definition lift {A} (r : Result A) : M A := fun w => (r, w).

(** [try: body finally: cleanup], the shape of a [with] block. *)
Definition finally {A} (body : M A) (cleanup : World -> World) : M A :=
  fun w => let '(r, w') := body w in (r, cleanup w').

Definition for_each {A B} (f : A -> M B) : list A -> M (list B) :=
  fix go (l : list A) : M (list B) :=
    match l with
    | [] => ret []
    | a :: l' => let* b := f a in let* bs := go l' in ret (b :: bs)
    end.

(** *** Heap access *)

Definition deref (p : Ref) : M _NotYetLoadedTensor :=
  fun w => match heap w !! p with
           | Some o => (Ok o, w)
           | None => (Raise (ReferenceError "dangling reference"), w)
           end.

Definition alloc (o : _NotYetLoadedTensor) : M Ref :=
  fun w => (Ok (length (heap w)),
            mkWorld (heap w ++ [o]) (reads w) (filters w) (shown w)).

(** [p._load_tensor = l] *)
Definition set_load_tensor (p : Ref) (l : Loader) : M unit :=
  fun w => match heap w !! p with
           | Some o =>
               let o' := mkNotYetLoaded (metatensor o) (archiveinfo o)
                           (storageinfo o) (rebuild_args o) (Some l) in
               (Ok tt, mkWorld (<[p := o']> (heap w)) (reads w) (filters w)
                         (shown w))
           | None => (Raise (ReferenceError "dangling reference"), w)
           end.

(** [p._load_tensor]: the instance attribute when it is set, the bound
    method of the class otherwise. *)
Definition get_load_tensor (p : Ref) : M Loader :=
  let* o := deref p in
  ret (default (BoundMethod p) (_load_tensor_attr o)).

(** *** The [warnings] module *)

Definition filter_matches (w : PyWarning) (f : WarningFilter) : bool :=
  issubclass (w_category w) (wf_category f).

(** The action the filter list takes on a warning: that of the first
    matching filter, [always] when none matches. *)
Definition action_for (fs : list WarningFilter) (w : PyWarning) : Action :=
  match List.find (filter_matches w) fs with
  | Some f => wf_action f
  | None => always
  end.

Definition visible (fs : list WarningFilter) (w : PyWarning) : bool :=
  match action_for fs w with
  | ignore => false
  | always => true
  end.

(** [warnings.warn] *)
Definition warn (x : PyWarning) : M unit :=
  fun w => (Ok tt,
            if visible (filters w) x
            then mkWorld (heap w) (reads w) (filters w) (shown w ++ [x])
            else w).

Fixpoint warn_all (xs : list PyWarning) : M unit :=
  match xs with
  | [] => ret tt
  | x :: xs' => do warn x then warn_all xs'
  end.

Fixpoint remove_first (f : WarningFilter) (fs : list WarningFilter)
  : list WarningFilter :=
  match fs with
  | [] => []
  | g :: fs' => if decide (f = g) then fs' else g :: remove_first f fs'
  end.

(** [warnings.simplefilter(action)]: the filter for every category goes to
    the front of the list, an older copy of it is removed. *)
Definition simplefilter (a : Action) : M unit :=
  fun w => let f := mkFilter a Warning in
           (Ok tt, mkWorld (heap w) (reads w)
                     (f :: remove_first f (filters w)) (shown w)).

Definition set_filters (fs : list WarningFilter) (w : World) : World :=
  mkWorld (heap w) (reads w) fs (shown w).

(** [with warnings.catch_warnings(): body]: the filters are saved on entry
    and put back on exit, also when [body] raises. *)
Definition catch_warnings {A} (body : M A) : M A :=
  fun w => finally body (set_filters (filters w)) w.

(** ** The torch runtime, as far as the module calls it *)

(** The library calls the module makes.  What each of them warns about is
    not fixed by this module, so it is a parameter of the development. *)
Inductive TorchCall :=
| call_get_storage_from_record
| call_typed_storage
| call_TypedStorage_wrap
| call_TypedStorage_meta
| call_storage_cls (cls : StorageClass)
| call_rebuild_tensor_v2
| call_rebuild_from_type_v2
| call_rebuild_parameter.

(** The three rebuild functions of the library with the arguments they get.
    Each of them can refuse its arguments (a view that does not fit the
    storage, a negative size, [requires_grad] on an integer dtype, a state
    that cannot be set): which arguments are refused, and with what
    exception, is not fixed by this module either. *)
Inductive TorchRequest :=
| req_rebuild_tensor_v2 (storage : TypedStorage) (args : RebuildArgs)
| req_rebuild_from_type_v2 (ret : Tensor) (new_type : TensorClass)
    (state : PyDict)
| req_rebuild_parameter (data : Tensor) (requires_grad : bool)
    (backward_hooks : PyDict).

Definition type_repr : string :=
  "<class 'lightning.fabric.utilities.load._NotYetLoadedTensor'>".

(** The name of the type of a value, as an [AttributeError] prints it. *)
Definition type_name (v : Value) : string :=
  match v with
  | VNone => "NoneType"
  | VBool _ => "bool"
  | VInt _ => "int"
  | VStr _ => "str"
  | VDtype _ => "torch.dtype"
  | VPyDict _ => "dict"
  | VOpaque cls _ => cls
  | VStorage _ => "TypedStorage"
  | VTensor t => match t_class t with
                 | TensorT => "Tensor"
                 | ParameterT => "Parameter"
                 | SubclassT q => q
                 end
  | VBoundMethod _ _ => "builtin_function_or_method"
  | VNotYetLoaded _ => "_NotYetLoadedTensor"
  | VTuple _ => "tuple"
  | VList _ => "list"
  | VDict _ => "dict"
  | VRange _ _ _ => "range"
  | VSet _ => "set"
  | VObject cls _ => cls
  end.

(** What reading a missing attribute raises: the error of
    [_NotYetLoadedTensor.__getattr__] on a placeholder, the usual one
    elsewhere. *)
Definition no_attribute (v : Value) (name : string) : Exception :=
  match v with
  | VNotYetLoaded _ => AttributeError (type_repr +:+ " does not have " +:+ name)
  | _ => AttributeError ("'" +:+ type_name v +:+ "' object has no attribute '"
                         +:+ name +:+ "'")
  end.

(** [Tensor.as_subclass(new_type)]: a fresh instance of [new_type] over the
    same data; it is a parameter only when [new_type] is [Parameter]. *)
Definition as_subclass (t : Tensor) (new_type : TensorClass) : Tensor :=
  mkTensor new_type (t_storage t) (t_storage_offset t) (t_size t)
    (t_stride t) (t_requires_grad t) (t_backward_hooks t) (t_metadata t)
    (bool_decide (new_type = ParameterT)) (t_dict t).

(** [torch._utils._set_obj_state(obj, state)] for a dict [state]. *)
Definition _set_obj_state (t : Tensor) (state : PyDict) : Tensor :=
  mkTensor (t_class t) (t_storage t) (t_storage_offset t) (t_size t)
    (t_stride t) (t_requires_grad t) (t_backward_hooks t) (t_metadata t)
    (t_is_param t) (state ++ t_dict t).

(** [torch.nn.Parameter(data, requires_grad)] followed by the assignment
    of [_backward_hooks]: a plain tensor becomes an instance of
    [Parameter]; a tensor of a custom class keeps its class and is
    flagged as a parameter. *)
Definition make_parameter (data : Tensor) (requires_grad : bool)
    (backward_hooks : PyDict) : Tensor :=
  let cls := match t_class data with
             | SubclassT q => SubclassT q
             | _ => ParameterT
             end in
  mkTensor cls (t_storage data) (t_storage_offset data) (t_size data)
    (t_stride data) requires_grad backward_hooks (t_metadata data) true [].

(** The attributes of a real (or meta) tensor that the module reads, as
    values; the warning that a read emits is in [getattr] below. *)
Definition tensor_methods : list string :=
  ["size"; "stride"; "contiguous"; "storage_offset"; "numel"; "dim";
   "element_size"; "to"; "detach"; "clone"].

Definition Tensor_getattr (t : Tensor) (name : string) : Result Value :=
  if decide (name = "dtype") then Ok (VDtype (t_dtype t))
  else if decide (name = "shape") then Ok (VTuple (VInt <$> t_size t))
  else if decide (name = "ndim") then Ok (VInt (Z.of_nat (length (t_size t))))
  else if decide (name = "requires_grad") then Ok (VBool (t_requires_grad t))
  else if decide (name = "grad") then Ok VNone
  else if decide (name = "grad_fn") then Ok VNone
  else if decide (name = "layout") then Ok (VOpaque "torch.layout" "torch.strided")
  else if decide (name = "names") then Ok (VTuple ((fun _ => VNone) <$> t_size t))
  else if decide (name = "output_nr") then Ok (VInt 0)
  else if decide (name = "retains_grad") then Ok (VBool false)
  else if decide (name = "volatile") then Ok (VBool false)
  else if decide (name ∈ tensor_methods) then Ok (VBoundMethod t name)
  else Raise (AttributeError ("'Tensor' object has no attribute '" +:+ name +:+ "'")).

(** The warning that reading an attribute of a tensor emits: [volatile] is
    a removed attribute whose getter warns. *)
Definition attribute_warnings (name : string) : list PyWarning :=
  if decide (name = "volatile")
  then [mkWarning UserWarning
          "volatile was removed (Variable.volatile is always False)"]
  else [].

(** [getattr(v, name)] for the values the module applies it to. *)
Definition getattr (v : Value) (name : string) : M Value :=
  match v with
  | VTensor t => do warn_all (attribute_warnings name) then
                 lift (Tensor_getattr t name)
  | _ => raise (no_attribute v name)
  end.

(** [torch.empty(0)], the data of [Parameter(None)]. *)
Definition empty_tensor : Tensor :=
  mkTensor TensorT (mkTypedStorage float32 cpu [] None) 0 [0] [1] false []
    None false [].

(** What this module does not fix about the library: the warnings each call
    emits, the arguments the rebuild functions refuse, and what
    [default_restore_location] makes of a location tag other than [cpu]
    (it depends on the devices of the machine).  The statements below hold
    for every such runtime. *)
Class TorchRuntime := {
  emits : TorchCall -> list PyWarning;
  refuses : TorchRequest -> option Exception;
  restore_location : string -> Result Device
}.

Section Load.

Context `{runtime : TorchRuntime}.

Definition external (c : TorchCall) : M unit := warn_all (emits c).

(** A call of a rebuild function: its warnings, then its verdict on the
    arguments. *)
Definition library (c : TorchCall) (q : TorchRequest) : M unit :=
  do external c then
  match refuses q with
  | Some e => raise e
  | None => ret tt
  end.

(** *** Library calls *)

(** [reader.get_storage_from_record(name, nbytes, UntypedStorage)]: the
    request is logged whether or not the record can be read. *)
Definition read_record (reader : PyTorchFileReader) (name : string)
    (nbytes : Z) : M UntypedStorage :=
  fun w =>
    let w1 := mkWorld (heap w) (reads w ++ [mkRead name nbytes]) (filters w)
                (shown w) in
    match get_storage_from_record reader name nbytes with
    | Ok raw => (do external call_get_storage_from_record then ret raw) w1
    | Raise e => (Raise e, w1)
    end.

(** [storage._typed_storage()._untyped_storage] *)
Definition typed_storage_untyped (storage : UntypedStorage) : M UntypedStorage :=
  do external call_typed_storage then ret storage.

(** [TypedStorage(wrap_storage=uts, dtype=dtype, _internal=True)] *)
Definition TypedStorage_wrap (uts : UntypedStorage) (dtype : Dtype)
  : M TypedStorage :=
  do external call_TypedStorage_wrap then
  ret (mkTypedStorage dtype cpu uts None).

(** [cls().dtype] *)
Definition storage_cls_dtype (cls : StorageClass) : M Dtype :=
  do external (call_storage_cls cls) then ret (storage_class_dtype cls).

(** [TypedStorage(dtype=dtype, device="meta")] *)
Definition TypedStorage_meta (dtype : Dtype) : M TypedStorage :=
  do external call_TypedStorage_meta then
  ret (mkTypedStorage dtype meta [] None).

(** [torch._utils._rebuild_tensor_v2]: the tensor is a view of the untyped
    storage, so attributes set on the typed storage object are not on it. *)
Definition torch_rebuild_tensor_v2 (storage : TypedStorage)
    (storage_offset : Z) (size stride : list Z) (requires_grad : bool)
    (backward_hooks : PyDict) (metadata : option PyDict) : M Tensor :=
  do library call_rebuild_tensor_v2
       (req_rebuild_tensor_v2 storage
          (mkRebuildArgs storage_offset size stride requires_grad
             backward_hooks metadata)) then
  ret (mkTensor TensorT
         (mkTypedStorage (ts_dtype storage) (ts_device storage)
            (ts_untyped storage) None)
         storage_offset size stride requires_grad backward_hooks
         (match metadata with Some (_ :: _) => metadata | _ => None end)
         false []).

(** [torch._tensor._rebuild_from_type_v2]: it applies [func] to [args]
    itself, changes the class of the result unless it has that class
    already, and sets the state. *)
Definition torch_rebuild_from_type_v2 (func : list Value -> M Value)
    (new_type : TensorClass) (args : list Value) (state : PyDict) : M Value :=
  let* r := func args in
  match r with
  | VTensor t =>
      do library call_rebuild_from_type_v2
           (req_rebuild_from_type_v2 t new_type state) then
      let t' := if decide (t_class t = new_type) then t
                else as_subclass t new_type in
      ret (VTensor (_set_obj_state t' state))
  | _ =>
      do external call_rebuild_from_type_v2 then
      raise (no_attribute r "as_subclass")
  end.

(** [torch._utils._rebuild_parameter]: [Parameter(data, requires_grad)]
    followed by the assignment of the hooks; [Parameter(None)] is a
    parameter over [torch.empty(0)], and data that is not a tensor has no
    [detach]. *)
Definition torch_rebuild_parameter (data : Value) (requires_grad : bool)
    (backward_hooks : PyDict) : M Value :=
  match data with
  | VTensor t =>
      do library call_rebuild_parameter
           (req_rebuild_parameter t requires_grad backward_hooks) then
      ret (VTensor (make_parameter t requires_grad backward_hooks))
  | VNone =>
      do library call_rebuild_parameter
           (req_rebuild_parameter empty_tensor requires_grad backward_hooks) then
      ret (VTensor (make_parameter empty_tensor requires_grad backward_hooks))
  | _ =>
      do external call_rebuild_parameter then
      raise (no_attribute data "detach")
  end.

(** *** [_NotYetLoadedTensor] *)

Definition rebuild_tensor_v2 (storage : TypedStorage) (storage_offset : Z)
    (size stride : list Z) (requires_grad : bool) (backward_hooks : PyDict)
    (metadata : option PyDict) (archiveinfo : _LazyLoadingUnpickler)
  : M Value :=
  let rebuild_args := mkRebuildArgs storage_offset size stride requires_grad
                        backward_hooks metadata in
  let* metatensor := torch_rebuild_tensor_v2 storage storage_offset size
                       stride requires_grad backward_hooks metadata in
  let* storageinfo :=
    match ts_archiveinfo storage with
    | Some pid => ret pid
    | None => raise (AttributeError
                       "'TypedStorage' object has no attribute 'archiveinfo'")
    end in
  let* p := alloc (mkNotYetLoaded metatensor archiveinfo storageinfo
                     rebuild_args None) in
  ret (VNotYetLoaded p).

Definition _load_tensor (self : Ref) : M Value :=
  let* o := deref self in
  let fn := pid_fn (storageinfo o) in
  let size := pid_size (storageinfo o) in
  let dtype := t_dtype (metatensor o) in
  let* storage := read_record (file_reader (archiveinfo o)) ("data/" +:+ fn)
                    (size * _element_size dtype) in
  let* uts := typed_storage_untyped storage in
  let* storage := catch_warnings
                    (do simplefilter ignore then TypedStorage_wrap uts dtype) in
  let ra := rebuild_args o in
  let* t := torch_rebuild_tensor_v2 storage (ra_storage_offset ra)
              (ra_size ra) (ra_stride ra) (ra_requires_grad ra)
              (ra_backward_hooks ra) (ra_metadata ra) in
  ret (VTensor t).

(** Calling a value of the attribute [_load_tensor]. *)
Fixpoint call_loader (l : Loader) : M Value :=
  match l with
  | BoundMethod self => _load_tensor self
  | FromTypeClosure old_lt new_type state =>
      let* t := call_loader old_lt in
      torch_rebuild_from_type_v2 (fun _ => ret t) new_type [] state
  | ParameterClosure old_lt requires_grad backward_hooks =>
      let* t := call_loader old_lt in
      torch_rebuild_parameter t requires_grad backward_hooks
  end.

(** [p._load_tensor()] *)
Definition call_load_tensor (p : Ref) : M Value :=
  let* lt := get_load_tensor p in
  call_loader lt.

Definition rebuild_from_type_v2 (func : list Value -> M Value)
    (new_type : TensorClass) (args : list Value) (state : PyDict) : M Value :=
  let* r := func args in
  match r with
  | VNotYetLoaded p =>
      let* old_lt := get_load_tensor p in
      do set_load_tensor p (FromTypeClosure old_lt new_type state) then
      ret r
  | _ => torch_rebuild_from_type_v2 func new_type args state
  end.

Definition rebuild_parameter (data : Value) (requires_grad : bool)
    (backward_hooks : PyDict) : M Value :=
  match data with
  | VNotYetLoaded p =>
      let* old_lt := get_load_tensor p in
      do set_load_tensor p
           (ParameterClosure old_lt requires_grad backward_hooks) then
      ret data
  | _ => torch_rebuild_parameter data requires_grad backward_hooks
  end.

Definition __torch_function__ (func : list Value -> list (string * Value) -> M Value)
    (types : list Value) (args : list Value)
    (kwargs : option (list (string * Value))) : M Value :=
  let kwargs := default [] kwargs in
  let* loaded_args :=
    for_each (fun arg => match arg with
                     | VNotYetLoaded p => call_load_tensor p
                     | _ => ret arg
                     end) args in
  func loaded_args kwargs.

Definition allow_list : list string :=
  ["dtype"; "grad"; "grad_fn"; "layout"; "names"; "ndim"; "output_nr";
   "requires_grad"; "retains_grad"; "size"; "shape"; "volatile"].

Definition __getattr__ (self : Ref) (name : string) : M Value :=
  if decide (name ∈ allow_list) then
    let* o := deref self in
    getattr (VTensor (metatensor o)) name
  else if decide (name ∈ ["contiguous"]) then
    let* t := call_load_tensor self in
    getattr t name
  else raise (AttributeError (type_repr +:+ " does not have " +:+ name)).

(** *** [_LazyLoadingUnpickler] *)

Definition persistent_load (pid : Pid) : M TypedStorage :=
  let cls := pid_cls pid in
  let* storage := catch_warnings
                    (do simplefilter ignore then
                     let* dtype := storage_cls_dtype cls in
                     TypedStorage_meta dtype) in
  ret (mkTypedStorage (ts_dtype storage) (ts_device storage)
         (ts_untyped storage) (Some pid)).

(** *** [_materialize_tensors] *)

(** [apply_to_collection(data, dtype=_NotYetLoadedTensor, function=f)] of
    the package [lightning_utilities], the traversal that the module
    delegates to.  An instance of [dtype] is replaced by [function] of it.
    A mapping or a sequence other than a string is rebuilt, by a call of
    its own type, from its mapped items (the keys of a dict are kept): this
    gives a tuple, a list or a dict again, while [range] does not accept
    the list of items it is called with.  Anything else, a set or an object
    with attributes among them, is returned as it is, whatever it holds. *)
Fixpoint apply_to_collection (function : Ref -> M Value) (data : Value)
  : M Value :=
  match data with
  | VNotYetLoaded p => function p
  | VTuple items =>
      let* out := for_each (apply_to_collection function) items in
      ret (VTuple out)
  | VList items =>
      let* out := for_each (apply_to_collection function) items in
      ret (VList out)
  | VDict items =>
      let* out := for_each (fun kv => let* v := apply_to_collection function kv.2 in
                                  ret (kv.1, v)) items in
      ret (VDict out)
  | VRange _ _ _ =>
      raise (TypeError "'list' object cannot be interpreted as an integer")
  | _ => ret data
  end.

Definition _materialize_tensors (collection : Value) : M Value :=
  apply_to_collection (fun t => call_load_tensor t) collection.

(** *** The pickled calls *)

Definition int_of (v : Value) : option Z :=
  match v with VInt z => Some z | _ => None end.

(** The positional arguments of a pickled [_rebuild_tensor_v2] call. *)
Definition unpack_rebuild_tensor_args (args : list Value)
  : option (TypedStorage * RebuildArgs) :=
  match args with
  | VStorage storage :: VInt storage_offset :: VTuple size :: VTuple stride
    :: VBool requires_grad :: VPyDict backward_hooks :: rest =>
      size' ← mapM int_of size;
      stride' ← mapM int_of stride;
      metadata ← match rest with
                 | [] | [VNone] => Some None
                 | [VPyDict m] => Some (Some m)
                 | _ => None
                 end;
      Some (storage, mkRebuildArgs storage_offset size' stride' requires_grad
                       backward_hooks metadata)
  | _ => None
  end.

(** The arguments after the storage, as the pickle holds them. *)
Definition pack_rebuild_args (ra : RebuildArgs) : list Value :=
  [VInt (ra_storage_offset ra); VTuple (VInt <$> ra_size ra);
   VTuple (VInt <$> ra_stride ra); VBool (ra_requires_grad ra);
   VPyDict (ra_backward_hooks ra)]
  ++ match ra_metadata ra with Some m => [VPyDict m] | None => [] end.

(** [partial(_NotYetLoadedTensor.rebuild_tensor_v2, archiveinfo=self)], what
    [find_class] returns for [torch._utils._rebuild_tensor_v2]. *)
Definition partial_rebuild_tensor_v2 (archiveinfo : _LazyLoadingUnpickler)
    (args : list Value) : M Value :=
  match unpack_rebuild_tensor_args args with
  | Some (storage, ra) =>
      rebuild_tensor_v2 storage (ra_storage_offset ra) (ra_size ra)
        (ra_stride ra) (ra_requires_grad ra) (ra_backward_hooks ra)
        (ra_metadata ra) archiveinfo
  | None => raise (TypeError "rebuild_tensor_v2: bad arguments")
  end.

(** *** Eager loading, for comparison *)

(** [torch._utils._rebuild_tensor_v2] as the stock unpickler applies it to
    the pickled arguments. *)
Definition torch_rebuild_tensor_v2_args (args : list Value) : M Value :=
  match unpack_rebuild_tensor_args args with
  | Some (storage, ra) =>
      let* t := torch_rebuild_tensor_v2 storage (ra_storage_offset ra)
                  (ra_size ra) (ra_stride ra) (ra_requires_grad ra)
                  (ra_backward_hooks ra) (ra_metadata ra) in
      ret (VTensor t)
  | None => raise (TypeError "_rebuild_tensor_v2: bad arguments")
  end.





End Load.

(** ** A small archive, for concrete runs *)

Definition is_floating_point (dtype : Dtype) : bool :=
  match dtype with
  | float32 | float64 | float16 | bfloat16 => true
  | _ => false
  end.

(** The bytes that a view of the given geometry reaches in its storage. *)
Definition view_nbytes (dtype : Dtype) (storage_offset : Z)
    (size stride : list Z) : Z :=
  if existsb (Z.eqb 0) size then 0
  else _element_size dtype
       * (storage_offset + 1
          + foldr Z.add 0 (zip_with (fun n s => (n - 1) * s) size stride)).

(** The checks of the library that the examples meet: the tensor rebuild
    refuses sizes and strides of different lengths, a negative size, a view
    that reaches beyond the bytes of its storage (a meta storage has no
    bytes and is not checked) and [requires_grad] on a dtype that is not
    floating point, which [Parameter] refuses as well.  The messages are
    abridged. *)
Definition torch_checks (q : TorchRequest) : option Exception :=
  match q with
  | req_rebuild_tensor_v2 storage ra =>
      if negb (length (ra_size ra) =? length (ra_stride ra))%nat
      then Some (RuntimeError "mismatch in length of strides and shape")
      else if existsb (fun n : Z => (n <? 0)%Z) (ra_size ra)
      then Some (RuntimeError "negative dimension")
      else if match ts_device storage with
              | meta => false
              | _ => (Z.of_nat (length (ts_untyped storage))
                      <? view_nbytes (ts_dtype storage) (ra_storage_offset ra)
                           (ra_size ra) (ra_stride ra))%Z
              end
      then Some (RuntimeError "setStorage: out of bounds for storage")
      else if ra_requires_grad ra && negb (is_floating_point (ts_dtype storage))
      then Some (RuntimeError
                   "only Tensors of floating point dtype can require gradients")
      else None
  | req_rebuild_parameter data requires_grad _ =>
      if requires_grad && negb (is_floating_point (t_dtype data))
      then Some (RuntimeError
                   "only Tensors of floating point dtype can require gradients")
      else None
  | req_rebuild_from_type_v2 _ _ _ => None
  end.

(** A machine without an accelerator: a storage tagged for one cannot be
    restored. *)
Definition cpu_only (location : string) : Result Device :=
  if String.prefix "cuda" location
  then Raise (RuntimeError
                "Attempting to deserialize object on a CUDA device but torch.cuda.is_available() is False")
  else Raise (RuntimeError "don't know how to restore data location").

(** A runtime that never warns. *)
Definition quiet : TorchRuntime :=
  {| emits := fun _ => [];
     refuses := torch_checks;
     restore_location := cpu_only |}.

(** A runtime whose typed-storage constructors and storage classes emit the
    deprecation notice (a [UserWarning]), and whose tensor rebuild emits a
    [DeprecationWarning]. *)
Definition noisy : TorchRuntime :=
  {| emits := fun c =>
       match c with
       | call_TypedStorage_wrap | call_TypedStorage_meta | call_storage_cls _ =>
           [mkWarning UserWarning "TypedStorage is deprecated"]
       | call_rebuild_tensor_v2 => [mkWarning DeprecationWarning "rebuild"]
       | _ => []
       end;
     refuses := torch_checks;
     restore_location := cpu_only |}.


(** An archive with the single record [data/0] of eight bytes. *)
Definition ex_record : UntypedStorage :=
  [Byte.x00; Byte.x00; Byte.x80; Byte.x3f; Byte.x00; Byte.x00; Byte.x00;
   Byte.x40].

Definition ex_reader : PyTorchFileReader :=
  mkReader (fun name nbytes =>
              if decide (name = "data/0")
              then Ok (take (Z.to_nat nbytes) ex_record)
              else Raise (RuntimeError "record not found")).

Definition ex_unpickler : _LazyLoadingUnpickler := mkUnpickler ex_reader.

Definition ex_pid : Pid := mkPid "storage" FloatStorage "0" "cpu" 2.

Definition ex_missing_pid : Pid := mkPid "storage" FloatStorage "7" "cpu" 2.


Definition empty_world : World := mkWorld [] [] [] [].

(** The pickled call
    [_rebuild_tensor_v2(storage, 0, (2,), (1,), False, OrderedDict())]. *)
Definition ex_args : RebuildArgs := mkRebuildArgs 0 [2] [1] false [] None.

Definition ex_tail : list Value := pack_rebuild_args ex_args.

(** That call as the lazy unpickler runs it, from the persistent id on. *)
Definition ex_build `{runtime : TorchRuntime} (pid : Pid) (args : list Value) : M Value :=
  let* storage := persistent_load pid in
  partial_rebuild_tensor_v2 ex_unpickler (VStorage storage :: args).

(** A world holding one placeholder for [ex_pid], at reference 0. *)
Definition ex_world `{runtime : TorchRuntime} : World :=
  (ex_build ex_pid ex_tail empty_world).2.

Definition ex_state : PyDict := [("tag", "v")].

(** The placeholder of [ex_world]. *)
Definition ex_placeholder : _NotYetLoadedTensor :=
  mkNotYetLoaded
    (mkTensor TensorT (mkTypedStorage float32 meta [] None) 0 [2] [1]
       false [] None false [])
    ex_unpickler ex_pid ex_args None.

(** Rebuild arguments for four elements, more than the record [data/0]
    holds for the persistent id [ex_pid]. *)
Definition ex_wide_args : RebuildArgs := mkRebuildArgs 0 [4] [1] false [] None.

(** The tensor that the record [data/0] holds. *)
Definition ex_tensor : Tensor :=
  mkTensor TensorT (mkTypedStorage float32 cpu ex_record None) 0 [2] [1]
    false [] None false [].

(** An operation that returns what it was called with. *)
Definition ex_echo (args : list Value) (kwargs : list (string * Value))
  : M Value :=
  ret (VTuple [VList args; VDict kwargs]).

(** ** Vocabulary of the statements *)

(** The warnings of [xs] that get through the filter list [fs]. *)
Definition audible (fs : list WarningFilter) (xs : list PyWarning)
  : list PyWarning :=
  List.filter (visible fs) xs.

(** The world after [xs] has been shown and [rs] has been requested. *)
Definition advance (w : World) (rs : list ReadRequest) (xs : list PyWarning)
  : World :=
  mkWorld (heap w) (reads w ++ rs) (filters w) (shown w ++ xs).

Definition rmap {A B} (f : A -> B) (r : Result A) : Result B :=
  match r with
  | Ok a => Ok (f a)
  | Raise e => Raise e
  end.

(** The one request that materialising the placeholder [o] sends to the
    archive reader. *)
Definition load_request (o : _NotYetLoadedTensor) : ReadRequest :=
  mkRead ("data/" +:+ pid_fn (storageinfo o))
    (pid_size (storageinfo o) * _element_size (t_dtype (metatensor o))).

(** What the library answers to a request: its exception, or the value [a]. *)
Definition verdict `{runtime : TorchRuntime} {A} (q : TorchRequest) (a : A)
  : Result A :=
  match refuses q with
  | Some e => Raise e
  | None => Ok a
  end.

(** What the three rebuild functions of the library return. *)
Definition rebuild_tensor_v2_result `{runtime : TorchRuntime}
    (storage : TypedStorage) (ra : RebuildArgs) : Result Tensor :=
  verdict (req_rebuild_tensor_v2 storage ra)
    (mkTensor TensorT
       (mkTypedStorage (ts_dtype storage) (ts_device storage)
          (ts_untyped storage) None)
       (ra_storage_offset ra) (ra_size ra) (ra_stride ra)
       (ra_requires_grad ra) (ra_backward_hooks ra)
       (match ra_metadata ra with Some (_ :: _) => ra_metadata ra | _ => None end)
       false []).

Definition rebuild_from_type_v2_result `{runtime : TorchRuntime} (t : Tensor)
    (new_type : TensorClass) (state : PyDict) : Result Tensor :=
  verdict (req_rebuild_from_type_v2 t new_type state)
    (_set_obj_state (if decide (t_class t = new_type) then t
                     else as_subclass t new_type) state).

Definition rebuild_parameter_result `{runtime : TorchRuntime} (t : Tensor)
    (requires_grad : bool) (backward_hooks : PyDict) : Result Tensor :=
  verdict (req_rebuild_parameter t requires_grad backward_hooks)
    (make_parameter t requires_grad backward_hooks).

(** The storage that [_load_tensor] wraps around the bytes [raw]. *)
Definition loaded_storage (o : _NotYetLoadedTensor) (raw : UntypedStorage)
  : TypedStorage :=
  mkTypedStorage (t_dtype (metatensor o)) cpu raw None.

(** What the library makes of the bytes [raw] and the stored rebuild
    arguments of [o]. *)
Definition rebuilt `{runtime : TorchRuntime} (o : _NotYetLoadedTensor)
    (raw : UntypedStorage) : Result Tensor :=
  rebuild_tensor_v2_result (loaded_storage o raw) (rebuild_args o).

(** The placeholder whose method a loader ends up calling. *)
Fixpoint loader_self (l : Loader) : Ref :=
  match l with
  | BoundMethod self => self
  | FromTypeClosure old_lt _ _ => loader_self old_lt
  | ParameterClosure old_lt _ _ => loader_self old_lt
  end.

(** What the closures of a loader make of the tensor its method returns. *)
Fixpoint wrapped `{runtime : TorchRuntime} (l : Loader) (t : Tensor)
  : Result Tensor :=
  match l with
  | BoundMethod _ => Ok t
  | FromTypeClosure old_lt new_type state =>
      match wrapped old_lt t with
      | Ok t' => rebuild_from_type_v2_result t' new_type state
      | Raise e => Raise e
      end
  | ParameterClosure old_lt requires_grad backward_hooks =>
      match wrapped old_lt t with
      | Ok t' => rebuild_parameter_result t' requires_grad backward_hooks
      | Raise e => Raise e
      end
  end.

(** The library calls that the closures of a loader make on the way, in the
    order they run: a closure runs when the one inside it has returned. *)
Fixpoint wrapper_calls `{runtime : TorchRuntime} (l : Loader) (t : Tensor)
  : list TorchCall :=
  match l with
  | BoundMethod _ => []
  | FromTypeClosure old_lt _ _ =>
      wrapper_calls old_lt t
      ++ match wrapped old_lt t with
         | Ok _ => [call_rebuild_from_type_v2]
         | Raise _ => []
         end
  | ParameterClosure old_lt _ _ =>
      wrapper_calls old_lt t
      ++ match wrapped old_lt t with
         | Ok _ => [call_rebuild_parameter]
         | Raise _ => []
         end
  end.

(** The value of the attribute [_load_tensor] of a placeholder. *)
Definition loader_of (p : Ref) (o : _NotYetLoadedTensor) : Loader :=
  default (BoundMethod p) (_load_tensor_attr o).

(** [o] with its attribute [_load_tensor] set to [l]. *)
Definition with_loader (o : _NotYetLoadedTensor) (l : Loader)
  : _NotYetLoadedTensor :=
  mkNotYetLoaded (metatensor o) (archiveinfo o) (storageinfo o)
    (rebuild_args o) (Some l).

Definition set_heap (h : list _NotYetLoadedTensor) (w : World) : World :=
  mkWorld h (reads w) (filters w) (shown w).

(** The placeholders of a collection that the traversal reaches, in
    traversal order: those inside a set or an object are not among them. *)
Fixpoint placeholders (v : Value) : list Ref :=
  match v with
  | VNotYetLoaded p => [p]
  | VTuple items | VList items => concat (placeholders <$> items)
  | VDict items => concat ((fun kv => placeholders kv.2) <$> items)
  | _ => []
  end.

(** Every placeholder that a value holds, reached or not. *)
Fixpoint all_placeholders (v : Value) : list Ref :=
  match v with
  | VNotYetLoaded p => [p]
  | VTuple items | VList items | VSet items =>
      concat (all_placeholders <$> items)
  | VDict items | VObject _ items =>
      concat ((fun kv => all_placeholders kv.2) <$> items)
  | _ => []
  end.

(** The placeholders of a collection that sit inside a set or an object,
    out of reach of the traversal. *)
Fixpoint unreached (v : Value) : list Ref :=
  match v with
  | VSet items => concat (all_placeholders <$> items)
  | VObject _ attrs => concat ((fun kv => all_placeholders kv.2) <$> attrs)
  | VTuple items | VList items => concat (unreached <$> items)
  | VDict items => concat ((fun kv => unreached kv.2) <$> items)
  | _ => []
  end.

(** The traversal meets no [range]: every container on its way can be
    rebuilt from its items. *)
Fixpoint rebuildable (v : Value) : bool :=
  match v with
  | VRange _ _ _ => false
  | VTuple items | VList items => forallb rebuildable items
  | VDict items => forallb (fun kv => rebuildable kv.2) items
  | _ => true
  end.

(** The copy of a collection in which [f p] stands for each placeholder
    [p] that the traversal reaches. *)
Fixpoint replace_placeholders (f : Ref -> Value) (v : Value) : Value :=
  match v with
  | VNotYetLoaded p => f p
  | VTuple items => VTuple (replace_placeholders f <$> items)
  | VList items => VList (replace_placeholders f <$> items)
  | VDict items =>
      VDict ((fun kv => (kv.1, replace_placeholders f kv.2)) <$> items)
  | _ => v
  end.

(** The warnings of the steps of [_load_tensor] that run outside its
    [catch_warnings] block. *)
Definition load_warnings `{runtime : TorchRuntime} : list PyWarning :=
  emits call_get_storage_from_record ++ emits call_typed_storage
  ++ emits call_rebuild_tensor_v2.

Definition wrapper_warnings `{runtime : TorchRuntime} (l : Loader) (t : Tensor)
  : list PyWarning :=
  concat (emits <$> wrapper_calls l t).

(** The bytes the reader returns for the request of [o]. *)
Definition load_read (o : _NotYetLoadedTensor) : Result UntypedStorage :=
  get_storage_from_record (file_reader (archiveinfo o))
    (rr_name (load_request o)) (rr_nbytes (load_request o)).

(** What calling the loader [l], whose method belongs to [o], returns: the
    error of the reader, or what the library makes of the bytes read, first
    with the stored rebuild arguments and then closure by closure. *)
Definition load_value `{runtime : TorchRuntime} (l : Loader)
    (o : _NotYetLoadedTensor) : Result Value :=
  match load_read o with
  | Ok raw =>
      match rebuilt o raw with
      | Ok t => rmap VTensor (wrapped l t)
      | Raise e => Raise e
      end
  | Raise e => Raise e
  end.

(** The warnings that this call emits outside the [catch_warnings] block. *)
Definition load_emitted `{runtime : TorchRuntime} (l : Loader)
    (o : _NotYetLoadedTensor) : list PyWarning :=
  match load_read o with
  | Ok raw =>
      load_warnings
      ++ match rebuilt o raw with
         | Ok t => wrapper_warnings l t
         | Raise _ => []
         end
  | Raise _ => []
  end.

(** Calling the loader [l], whose method belongs to [o], in the world [w]. *)
Definition load_outcome `{runtime : TorchRuntime} (l : Loader) (o : _NotYetLoadedTensor)
    (w : World) : Result Value * World :=
  (load_value l o,
   advance w [load_request o] (audible (filters w) (load_emitted l o))).

(** The loader that [p._load_tensor()] calls in the heap [h], with the
    placeholder whose method it ends in. *)
Definition target (h : list _NotYetLoadedTensor) (p : Ref)
  : option (Loader * _NotYetLoadedTensor) :=
  o ← h !! p;
  o' ← h !! loader_self (loader_of p o);
  Some (loader_of p o, o').

(** The value of [p._load_tensor()] as a function of the heap. *)
Definition loaded `{runtime : TorchRuntime} (h : list _NotYetLoadedTensor)
    (p : Ref) : Result Value :=
  match target h p with
  | Some (l, o') => load_value l o'
  | None => Raise (ReferenceError "dangling reference")
  end.

(** The requests [p._load_tensor()] sends to the archive reader. *)
Definition requests (h : list _NotYetLoadedTensor) (p : Ref)
  : list ReadRequest :=
  match target h p with
  | Some (_, o') => [load_request o']
  | None => []
  end.

(** Every loader in the heap ends in the method of the placeholder that
    holds it: the hooks only ever wrap a placeholder's own attribute. *)
Definition well_rooted (h : list _NotYetLoadedTensor) : Prop :=
  ∀ p o, h !! p = Some o → loader_self (loader_of p o) = p.

(** The meta tensor of a placeholder has the size and stride of its rebuild
    arguments, as [rebuild_tensor_v2] builds it. *)
Definition meta_consistent (o : _NotYetLoadedTensor) : Prop :=
  t_size (metatensor o) = ra_size (rebuild_args o)
  ∧ t_stride (metatensor o) = ra_stride (rebuild_args o).

Definition heap_ok (h : list _NotYetLoadedTensor) : Prop :=
  well_rooted h ∧ Forall meta_consistent h.

(** The positional arguments of a call that are placeholders. *)
Definition placeholder_args (args : list Value) : list Ref :=
  concat ((fun a => match a with VNotYetLoaded p => [p] | _ => [] end) <$> args).

(** The value standing for [p] once it is materialised in the heap [h]. *)
Definition loaded_value `{runtime : TorchRuntime}
    (h : list _NotYetLoadedTensor) (p : Ref) : Value :=
  match loaded h p with
  | Ok v => v
  | Raise _ => VNotYetLoaded p
  end.

Definition is_Ok {A} (r : Result A) : Prop := ∃ a, r = Ok a.

Definition loadable `{runtime : TorchRuntime} (h : list _NotYetLoadedTensor)
    (p : Ref) : bool :=
  match loaded h p with
  | Ok _ => true
  | Raise _ => false
  end.


(** The outcome [out] of a step that materialises the placeholders [ps], in
    this order, starting in the world [w]: the heap and the filters are
    kept; the step returns iff every placeholder can be loaded, and then it
    returns [expected] after one request for each placeholder. *)
Definition collects `{runtime : TorchRuntime} {A} (w : World) (ps : list Ref)
    (out : Result A * World) (expected : A) : Prop :=
  heap out.2 = heap w
  ∧ filters out.2 = filters w
  ∧ match out.1 with
    | Ok a =>
        forallb (loadable (heap w)) ps = true
        ∧ a = expected
        ∧ reads out.2 = reads w ++ concat (requests (heap w) <$> ps)
    | Raise _ => forallb (loadable (heap w)) ps = false
    end.

(** ** The unpickler *)

(** What [find_class] can return: one of the three hooks, bound to the
    unpickler by [partial(..., archiveinfo=self)], or whatever the base
    class finds under the name. *)
Inductive Global :=
| lazy_rebuild_tensor_v2 (archiveinfo : _LazyLoadingUnpickler)
| lazy_rebuild_from_type_v2 (archiveinfo : _LazyLoadingUnpickler)
| lazy_rebuild_parameter (archiveinfo : _LazyLoadingUnpickler)
| inherited (module name : string).

Definition find_class (self : _LazyLoadingUnpickler) (module name : string)
  : Global :=
  if decide (module = "torch._utils" ∧ name = "_rebuild_tensor_v2")
  then lazy_rebuild_tensor_v2 self
  else if decide (module = "torch._tensor" ∧ name = "_rebuild_from_type_v2")
  then lazy_rebuild_from_type_v2 self
  else if decide (module = "torch._utils" ∧ name = "_rebuild_parameter")
  then lazy_rebuild_parameter self
  else inherited module name.

(** The positional arguments of a pickled [_rebuild_parameter] call. *)
Definition unpack_parameter_args (args : list Value)
  : option (Value * bool * PyDict) :=
  match args with
  | [data; VBool requires_grad; VPyDict backward_hooks] =>
      Some (data, requires_grad, backward_hooks)
  | _ => None
  end.

(** The tensor-building calls of a pickle.  Each constructor stands for
    the calls that torch writes for one kind of object:
    - a tensor, [_rebuild_tensor_v2(storage, ...)], the storage being a
      persistent id;
    - a parameter, [_rebuild_parameter(data, requires_grad, hooks)];
    - a tensor of a subclass,
      [_rebuild_from_type_v2(_rebuild_tensor_v2, T, (storage, ...), state)];
    - a parameter of a subclass,
      [_rebuild_from_type_v2(_rebuild_parameter, T, (data, requires_grad,
      hooks), state)]. *)
Inductive Call :=
| CTensor (pid : Pid) (ra : RebuildArgs)
| CParameter (data : Call) (requires_grad : bool) (backward_hooks : PyDict)
| CTypedTensor (pid : Pid) (ra : RebuildArgs) (new_type : TensorClass)
    (state : PyDict)
| CTypedParameter (data : Call) (requires_grad : bool)
    (backward_hooks : PyDict) (new_type : TensorClass) (state : PyDict).

(** The persistent id and the rebuild arguments at the bottom of a call. *)
Fixpoint call_pid (c : Call) : Pid :=
  match c with
  | CTensor pid _ | CTypedTensor pid _ _ _ => pid
  | CParameter data _ _ | CTypedParameter data _ _ _ _ => call_pid data
  end.

Fixpoint call_args (c : Call) : RebuildArgs :=
  match c with
  | CTensor _ ra | CTypedTensor _ ra _ _ => ra
  | CParameter data _ _ | CTypedParameter data _ _ _ _ => call_args data
  end.

(** The loader that the hooks of a call leave on its placeholder [p]. *)
Fixpoint call_closures (c : Call) (p : Ref) : Loader :=
  match c with
  | CTensor _ _ => BoundMethod p
  | CParameter data requires_grad backward_hooks =>
      ParameterClosure (call_closures data p) requires_grad backward_hooks
  | CTypedTensor _ _ new_type state =>
      FromTypeClosure (BoundMethod p) new_type state
  | CTypedParameter data requires_grad backward_hooks new_type state =>
      FromTypeClosure
        (ParameterClosure (call_closures data p) requires_grad backward_hooks)
        new_type state
  end.

(** The storage that [persistent_load] returns for a persistent id. *)
Definition meta_storage (pid : Pid) : TypedStorage :=
  mkTypedStorage (storage_class_dtype (pid_cls pid)) meta [] (Some pid).

(** The request that unpickling a call lazily sends to the tensor rebuild
    of the library, for the meta tensor. *)
Definition meta_request (c : Call) : TorchRequest :=
  req_rebuild_tensor_v2 (meta_storage (call_pid c)) (call_args c).

(** The placeholder that unpickling a call lazily leaves at [p]. *)
Definition call_placeholder (archiveinfo : _LazyLoadingUnpickler) (c : Call)
    (p : Ref) : _NotYetLoadedTensor :=
  let ra := call_args c in
  mkNotYetLoaded
    (mkTensor TensorT
       (mkTypedStorage (storage_class_dtype (pid_cls (call_pid c))) meta []
          None)
       (ra_storage_offset ra) (ra_size ra) (ra_stride ra)
       (ra_requires_grad ra) (ra_backward_hooks ra)
       (match ra_metadata ra with Some (_ :: _) => ra_metadata ra | _ => None end)
       false [])
    archiveinfo (call_pid c) ra
    (match c with
     | CTensor _ _ => None
     | _ => Some (call_closures c p)
     end).

(** The first placeholder of [ps] that cannot be loaded, with its error
    and the placeholders tried up to and including it. *)
Fixpoint first_failure `{runtime : TorchRuntime}
    (h : list _NotYetLoadedTensor) (ps : list Ref)
  : option (list Ref * Exception) :=
  match ps with
  | [] => None
  | p :: ps' =>
      match loaded h p with
      | Ok _ => (fun r => (p :: r.1, r.2)) <$> first_failure h ps'
      | Raise e => Some ([p], e)
      end
  end.

Section Unpickling.

Context `{runtime : TorchRuntime}.

(** Calling what [find_class] returned on pickled values.  The base class
    resolves the two torch names to the functions of the library; other
    globals are outside this model. *)
Definition call_global (g : Global) (args : list Value) : M Value :=
  match g with
  | lazy_rebuild_tensor_v2 archiveinfo =>
      partial_rebuild_tensor_v2 archiveinfo args
  | lazy_rebuild_parameter _ =>
      match unpack_parameter_args args with
      | Some (data, requires_grad, backward_hooks) =>
          rebuild_parameter data requires_grad backward_hooks
      | None => raise (TypeError "rebuild_parameter: bad arguments")
      end
  | lazy_rebuild_from_type_v2 _ =>
      raise (TypeError "rebuild_from_type_v2: bad arguments")
  | inherited module name =>
      if decide (module = "torch._utils" ∧ name = "_rebuild_tensor_v2")
      then torch_rebuild_tensor_v2_args args
      else if decide (module = "torch._utils" ∧ name = "_rebuild_parameter")
      then match unpack_parameter_args args with
           | Some (data, requires_grad, backward_hooks) =>
               torch_rebuild_parameter data requires_grad backward_hooks
           | None => raise (TypeError "_rebuild_parameter: bad arguments")
           end
      else raise (RuntimeError "global outside the model")
  end.

(** Calling what [find_class] returned for [_rebuild_from_type_v2] on
    [(func, new_type, args, state)], [func] being a global itself. *)
Definition call_from_type (g func : Global) (new_type : TensorClass)
    (args : list Value) (state : PyDict) : M Value :=
  match g with
  | lazy_rebuild_from_type_v2 _ =>
      rebuild_from_type_v2 (call_global func) new_type args state
  | inherited module name =>
      if decide (module = "torch._tensor" ∧ name = "_rebuild_from_type_v2")
      then torch_rebuild_from_type_v2 (call_global func) new_type args state
      else raise (RuntimeError "global outside the model")
  | _ => raise (TypeError "bad arguments")
  end.

(** The two methods that [_LazyLoadingUnpickler] overrides. *)
Record Unpickler := mkMethods {
  u_find_class : string -> string -> Global;
  u_persistent_load : Pid -> M TypedStorage
}.

Definition lazy_unpickler (self : _LazyLoadingUnpickler) : Unpickler :=
  mkMethods (find_class self) persistent_load.

(** Unpickling a call: globals are resolved by [find_class], persistent ids
    by [persistent_load], arguments are built before the call is made. *)
Fixpoint unpickle (u : Unpickler) (c : Call) : M Value :=
  match c with
  | CTensor pid ra =>
      let* storage := u_persistent_load u pid in
      call_global (u_find_class u "torch._utils" "_rebuild_tensor_v2")
        (VStorage storage :: pack_rebuild_args ra)
  | CParameter data requires_grad backward_hooks =>
      let* d := unpickle u data in
      call_global (u_find_class u "torch._utils" "_rebuild_parameter")
        [d; VBool requires_grad; VPyDict backward_hooks]
  | CTypedTensor pid ra new_type state =>
      let* storage := u_persistent_load u pid in
      call_from_type (u_find_class u "torch._tensor" "_rebuild_from_type_v2")
        (u_find_class u "torch._utils" "_rebuild_tensor_v2") new_type
        (VStorage storage :: pack_rebuild_args ra) state
  | CTypedParameter data requires_grad backward_hooks new_type state =>
      let* d := unpickle u data in
      call_from_type (u_find_class u "torch._tensor" "_rebuild_from_type_v2")
        (u_find_class u "torch._utils" "_rebuild_parameter") new_type
        [d; VBool requires_grad; VPyDict backward_hooks] state
  end.

(** Unpickling a state dict, a dict from names to tensor-building calls:
    the entries are built in the order of the pickle. *)
Definition unpickle_state_dict (u : Unpickler) (items : list (string * Call))
  : M Value :=
  let* out := for_each (fun kv => let* v := unpickle u kv.2 in ret (kv.1, v))
                items in
  ret (VDict out).

(** The library functions of a call, applied in the order of the pickle to
    what [base] returns for the tensor at the bottom of the call. *)
Fixpoint replay (c : Call) (base : M Value) : M Value :=
  match c with
  | CTensor _ _ => base
  | CParameter data requires_grad backward_hooks =>
      let* t := replay data base in
      torch_rebuild_parameter t requires_grad backward_hooks
  | CTypedTensor _ _ new_type state =>
      let* t := base in
      torch_rebuild_from_type_v2 (fun _ => ret t) new_type [] state
  | CTypedParameter data requires_grad backward_hooks new_type state =>
      let* t := (let* d := replay data base in
                 torch_rebuild_parameter d requires_grad backward_hooks) in
      torch_rebuild_from_type_v2 (fun _ => ret t) new_type [] state
  end.

End Unpickling.

(** The nesting of [ex_world], once more as a call: a parameter of a
    subclass tensor. *)
Definition ex_call : Call :=
  CParameter (CTypedTensor ex_pid ex_args (SubclassT "My") ex_state) true [].

(** The request for the record of a call. *)
Definition call_request (c : Call) : ReadRequest :=
  mkRead ("data/" +:+ pid_fn (call_pid c))
    (pid_size (call_pid c)
     * _element_size (storage_class_dtype (pid_cls (call_pid c)))).

(** The outcome [out] of a step that materialises the placeholders [ps] in
    this order stops at the first one that cannot be loaded: it raises that
    error, after the requests for the placeholders tried. *)
Definition stops `{runtime : TorchRuntime} {A} (w : World) (ps : list Ref)
    (out : Result A * World) : Prop :=
  match first_failure (heap w) ps with
  | Some (tried, e) =>
      out.1 = Raise e
      ∧ reads out.2 = reads w ++ concat (requests (heap w) <$> tried)
  | None => is_Ok out.1
  end.


Definition ex_broken_dict : list (string * Call) :=
  [("a", CTensor ex_pid ex_args); ("b", CTensor ex_missing_pid ex_args);
   ("c", CTensor ex_pid ex_args)].

(** The placeholders and the entries that unpickling a state dict lazily
    leaves, the first placeholder being [n]. *)
Fixpoint lazy_heap (ai : _LazyLoadingUnpickler) (items : list (string * Call))
    (n : nat) : list _NotYetLoadedTensor :=
  match items with
  | [] => []
  | kv :: rest => call_placeholder ai kv.2 n :: lazy_heap ai rest (S n)
  end.

Fixpoint lazy_entries (items : list (string * Call)) (n : nat)
  : list (string * Value) :=
  match items with
  | [] => []
  | kv :: rest => (kv.1, VNotYetLoaded n) :: lazy_entries rest (S n)
  end.

(** The first entry of a state dict whose meta tensor the library refuses
    to build, as the number of entries before it and the exception. *)
Fixpoint first_refused `{runtime : TorchRuntime} (items : list (string * Call))
  : option (nat * Exception) :=
  match items with
  | [] => None
  | kv :: rest =>
      match refuses (meta_request kv.2) with
      | Some e => Some (0%nat, e)
      | None => (fun r => (S r.1, r.2)) <$> first_refused rest
      end
  end.

(** ** Properties *)

(** Induction on values that goes through the items of the containers that
    the traversal rebuilds. *)
Section ValueInduction.

Variable P : Value → Prop.
Hypothesis Hatom : ∀ v,
  match v with VTuple _ | VList _ | VDict _ => False | _ => True end → P v.
Hypothesis Htuple : ∀ items, Forall P items → P (VTuple items).
Hypothesis Hlist : ∀ items, Forall P items → P (VList items).
Hypothesis Hdict : ∀ items, Forall (λ kv, P kv.2) items → P (VDict items).

Fixpoint Value_nested_ind (v : Value) : P v :=
  match v with
  | VTuple items =>
      Htuple items
        ((fix go (l : list Value) : Forall P l :=
            match l with
            | [] => @List.Forall_nil _ P
            | x :: l' => @List.Forall_cons _ P x l' (Value_nested_ind x) (go l')
            end) items)
  | VList items =>
      Hlist items
        ((fix go (l : list Value) : Forall P l :=
            match l with
            | [] => @List.Forall_nil _ P
            | x :: l' => @List.Forall_cons _ P x l' (Value_nested_ind x) (go l')
            end) items)
  | VDict items =>
      Hdict items
        ((fix go (l : list (string * Value)) : Forall (λ kv, P kv.2) l :=
            match l with
            | [] => @List.Forall_nil _ _
            | x :: l' => @List.Forall_cons _ (λ kv, P kv.2) x l'
                           (Value_nested_ind x.2) (go l')
            end) items)
  | v' => Hatom v' I
  end.

End ValueInduction.

Section Properties.

Context `{runtime : TorchRuntime}.

(** *** Running the primitives *)

Lemma bind_Ok {A B} (m : M A) (k : A → M B) w a w' :
  m w = (Ok a, w') → bind m k w = k a w'.
Proof. intros E. unfold bind. by rewrite E. Qed.

Lemma bind_Raise {A B} (m : M A) (k : A → M B) w e w' :
  m w = (Raise e, w') → bind m k w = (Raise e, w').
Proof. intros E. unfold bind. by rewrite E. Qed.

Lemma advance_nil w : advance w [] [] = w.
Proof. destruct w; unfold advance; simpl. by rewrite !app_nil_r. Qed.

Lemma advance_advance w rs xs rs' xs' :
  advance (advance w rs xs) rs' xs' = advance w (rs ++ rs') (xs ++ xs').
Proof. unfold advance; simpl. by rewrite !app_assoc. Qed.

Lemma warn_all_run xs w :
  warn_all xs w = (Ok tt, advance w [] (audible (filters w) xs)).
Proof.
  revert w. induction xs as [|x xs IH]; intros w.
  - simpl. by rewrite advance_nil.
  - cbn [warn_all]. unfold bind, warn.
    unfold audible. cbn [List.filter].
    destruct (visible (filters w) x) eqn:E; rewrite IH; unfold advance; simpl.
    + by rewrite !app_nil_r, <- app_assoc.
    + done.
Qed.

Lemma external_run c w :
  external c w = (Ok tt, advance w [] (audible (filters w) (emits c))).
Proof. apply warn_all_run. Qed.

(** A call of a rebuild function shows its warnings and answers with the
    verdict of the library. *)
Lemma library_run {A} c q (a : A) w :
  (do library c q then ret a) w
  = (verdict q a, advance w [] (audible (filters w) (emits c))).
Proof.
  unfold library, bind. rewrite external_run. unfold verdict.
  by destruct (refuses q).
Qed.

Lemma visible_ignore_all fs x : visible (mkFilter ignore Warning :: fs) x = false.
Proof. reflexivity. Qed.

Lemma audible_ignore_all fs xs : audible (mkFilter ignore Warning :: fs) xs = [].
Proof. induction xs; [done|]. unfold audible in *. simpl. done. Qed.

Lemma audible_app fs xs ys : audible fs (xs ++ ys) = audible fs xs ++ audible fs ys.
Proof. unfold audible. apply List.filter_app. Qed.

(** A block that silences warnings and makes one library call shows
    nothing and leaves the filters as they were. *)
Lemma silenced_run {A} c (a : A) w :
  catch_warnings (do simplefilter ignore then do external c then ret a) w
  = (Ok a, w).
Proof.
  unfold catch_warnings, finally, bind at 1, simplefilter.
  unfold bind. rewrite external_run. cbn [filters].
  rewrite audible_ignore_all. unfold ret, advance, set_filters; simpl.
  destruct w; simpl. by rewrite !app_nil_r.
Qed.

Lemma deref_run p o w : heap w !! p = Some o -> deref p w = (Ok o, w).
Proof. intros E. unfold deref. by rewrite E. Qed.

Lemma read_record_run reader name nbytes w :
  read_record reader name nbytes w =
  match get_storage_from_record reader name nbytes with
  | Ok raw => (Ok raw, advance w [mkRead name nbytes]
                         (audible (filters w) (emits call_get_storage_from_record)))
  | Raise e => (Raise e, advance w [mkRead name nbytes] [])
  end.
Proof.
  unfold read_record. destruct (get_storage_from_record _ _ _) as [raw|e].
  - unfold bind. rewrite external_run. unfold ret, advance; simpl.
    by rewrite app_nil_r.
  - unfold advance; simpl. by rewrite app_nil_r.
Qed.

(** The tensor rebuild of the library, on the arguments as a record. *)
Lemma torch_rebuild_tensor_v2_run storage ra w :
  torch_rebuild_tensor_v2 storage (ra_storage_offset ra) (ra_size ra)
    (ra_stride ra) (ra_requires_grad ra) (ra_backward_hooks ra)
    (ra_metadata ra) w
  = (rebuild_tensor_v2_result storage ra,
     advance w [] (audible (filters w) (emits call_rebuild_tensor_v2))).
Proof.
  destruct ra as [off size stride rg hooks md].
  unfold torch_rebuild_tensor_v2. by rewrite library_run.
Qed.

Lemma rmap_Ok {A B} (f : A → B) r b :
  rmap f r = Ok b → ∃ a, r = Ok a ∧ b = f a.
Proof. destruct r; [|done]. intros [= <-]. by eexists. Qed.

Lemma _load_tensor_run self o w :
  heap w !! self = Some o ->
  _load_tensor self w = load_outcome (BoundMethod self) o w.
Proof.
  intros E. unfold _load_tensor, load_outcome, load_value, load_emitted, load_read.
  unfold bind at 1. rewrite (deref_run _ _ _ E).
  unfold bind at 1. rewrite read_record_run. cbn [load_request rr_name rr_nbytes].
  destruct (get_storage_from_record _ _ _) as [raw|e]; [|done].
  unfold typed_storage_untyped, TypedStorage_wrap.
  unfold bind at 1. unfold bind at 1. rewrite external_run.
  unfold ret at 1. unfold bind at 1. rewrite silenced_run.
  unfold bind at 1. rewrite torch_rebuild_tensor_v2_run.
  fold (loaded_storage o raw). fold (rebuilt o raw).
  rewrite !advance_advance. cbn [advance filters app].
  unfold load_warnings. rewrite !audible_app, !app_assoc.
  destruct (rebuilt o raw) as [t|e]; unfold ret; cbn [rmap wrapped];
    unfold wrapper_warnings; cbn [wrapper_calls fmap list_fmap concat];
    by rewrite ?app_nil_r.
Qed.

Lemma torch_rebuild_from_type_v2_const (v : Value) new_type state w :
  torch_rebuild_from_type_v2 (fun _ => ret v) new_type [] state w =
  (match v with
   | VTensor t => rmap VTensor (rebuild_from_type_v2_result t new_type state)
   | _ => Raise (no_attribute v "as_subclass")
   end,
   advance w [] (audible (filters w) (emits call_rebuild_from_type_v2))).
Proof.
  unfold torch_rebuild_from_type_v2. unfold bind at 1. unfold ret at 1.
  destruct v;
    try (unfold bind; rewrite external_run; reflexivity).
  unfold bind. unfold library, bind. rewrite external_run.
  unfold rebuild_from_type_v2_result, verdict.
  by destruct (refuses _).
Qed.

Lemma torch_rebuild_parameter_run (data : Value) requires_grad hooks w :
  torch_rebuild_parameter data requires_grad hooks w =
  (match data with
   | VTensor t => rmap VTensor (rebuild_parameter_result t requires_grad hooks)
   | VNone => rmap VTensor
                (rebuild_parameter_result empty_tensor requires_grad hooks)
   | _ => Raise (no_attribute data "detach")
   end,
   advance w [] (audible (filters w) (emits call_rebuild_parameter))).
Proof.
  unfold torch_rebuild_parameter.
  destruct data;
    try (unfold bind; rewrite external_run; reflexivity);
    unfold bind, library, bind; rewrite external_run;
    unfold rebuild_parameter_result, verdict; by destruct (refuses _).
Qed.

Lemma call_loader_run l o w :
  heap w !! loader_self l = Some o ->
  call_loader l w = load_outcome l o w.
Proof.
  revert w. induction l as [self|old IH nt st|old IH rg hooks]; intros w E.
  - by apply _load_tensor_run.
  - cbn [call_loader]. unfold bind. rewrite (IH w E).
    unfold load_outcome, load_value, load_emitted.
    destruct (load_read o) as [raw|e]; [|done].
    destruct (rebuilt o raw) as [t|e]; [|done].
    unfold wrapper_warnings. cbn [wrapped wrapper_calls].
    destruct (wrapped old t) as [t'|e]; cbn [rmap]; [|by rewrite app_nil_r].
    rewrite torch_rebuild_from_type_v2_const.
    rewrite advance_advance. cbn [advance filters app].
    rewrite fmap_app, concat_app. cbn [fmap list_fmap concat].
    by rewrite app_nil_r, !audible_app, !app_assoc.
  - cbn [call_loader]. unfold bind. rewrite (IH w E).
    unfold load_outcome, load_value, load_emitted.
    destruct (load_read o) as [raw|e]; [|done].
    destruct (rebuilt o raw) as [t|e]; [|done].
    unfold wrapper_warnings. cbn [wrapped wrapper_calls].
    destruct (wrapped old t) as [t'|e]; cbn [rmap]; [|by rewrite app_nil_r].
    rewrite torch_rebuild_parameter_run.
    rewrite advance_advance. cbn [advance filters app].
    rewrite fmap_app, concat_app. cbn [fmap list_fmap concat].
    by rewrite app_nil_r, !audible_app, !app_assoc.
Qed.

Lemma get_load_tensor_run p o w :
  heap w !! p = Some o -> get_load_tensor p w = (Ok (loader_of p o), w).
Proof.
  intros E. unfold get_load_tensor, bind. by rewrite (deref_run _ _ _ E).
Qed.

Lemma call_load_tensor_run p o o' w :
  heap w !! p = Some o ->
  heap w !! loader_self (loader_of p o) = Some o' ->
  call_load_tensor p w = load_outcome (loader_of p o) o' w.
Proof.
  intros E E'. unfold call_load_tensor, bind.
  rewrite (get_load_tensor_run _ _ _ E). by apply call_loader_run.
Qed.

Lemma call_load_tensor_target p w :
  call_load_tensor p w =
  match target (heap w) p with
  | Some (l, o') => load_outcome l o' w
  | None => (Raise (ReferenceError "dangling reference"), w)
  end.
Proof.
  unfold target. destruct (heap w !! p) as [o|] eqn:E; simpl.
  - destruct (heap w !! loader_self (loader_of p o)) as [o'|] eqn:E'; simpl.
    + by apply call_load_tensor_run.
    + unfold call_load_tensor, bind. rewrite (get_load_tensor_run _ _ _ E).
      generalize dependent (loader_of p o). intros l.
      induction l as [self|old IH nt st|old IH rg hooks]; intros E'.
      * cbn in *. unfold _load_tensor, bind, deref. by rewrite E'.
      * cbn [call_loader]. unfold bind. by rewrite (IH E').
      * cbn [call_loader]. unfold bind. by rewrite (IH E').
  - unfold call_load_tensor, get_load_tensor, bind, deref. by rewrite E.
Qed.

Lemma target_lookup h p o o' :
  h !! p = Some o → h !! loader_self (loader_of p o) = Some o' →
  target h p = Some (loader_of p o, o').
Proof. intros E E'. unfold target. rewrite E; simpl. by rewrite E'. Qed.

Lemma call_load_tensor_value p w : (call_load_tensor p w).1 = loaded (heap w) p.
Proof.
  rewrite call_load_tensor_target. unfold loaded, load_outcome.
  by destruct (target (heap w) p) as [[l o']|].
Qed.

Lemma call_load_tensor_heap p w : heap (call_load_tensor p w).2 = heap w.
Proof.
  rewrite call_load_tensor_target. unfold load_outcome.
  by destruct (target (heap w) p) as [[l o']|].
Qed.

Lemma call_load_tensor_filters p w : filters (call_load_tensor p w).2 = filters w.
Proof.
  rewrite call_load_tensor_target. unfold load_outcome.
  by destruct (target (heap w) p) as [[l o']|].
Qed.

Lemma call_load_tensor_reads p w :
  reads (call_load_tensor p w).2 = reads w ++ requests (heap w) p.
Proof.
  rewrite call_load_tensor_target. unfold load_outcome, requests.
  destruct (target (heap w) p) as [[l o']|]; simpl; [done|].
  by rewrite app_nil_r.
Qed.

(** The block of [persistent_load]: both library calls run with every
    warning ignored, and the filters are put back. *)
Lemma persistent_load_block (cls : StorageClass) (w : World) :
  catch_warnings
    (do simplefilter ignore then
     let* dtype := storage_cls_dtype cls in
     TypedStorage_meta dtype) w
  = (Ok (mkTypedStorage (storage_class_dtype cls) meta [] None), w).
Proof.
  unfold catch_warnings, finally, storage_cls_dtype, TypedStorage_meta,
    simplefilter, bind.
  rewrite external_run. cbn [filters advance]. rewrite audible_ignore_all.
  unfold ret at 1. cbv beta iota.
  rewrite external_run. cbn [filters advance]. rewrite audible_ignore_all.
  unfold ret, set_filters; simpl.
  destruct w; simpl. by rewrite !app_nil_r.
Qed.

Lemma persistent_load_run (pid : Pid) (w : World) :
  persistent_load pid w = (Ok (meta_storage pid), w).
Proof.
  unfold persistent_load. unfold bind at 1. by rewrite persistent_load_block.
Qed.

(** What a loader returns, when it returns, is a tensor over the bytes of
    the record, with the geometry of the stored rebuild arguments. *)
Lemma wrapped_storage l t t' :
  wrapped l t = Ok t' →
  t_storage t' = t_storage t ∧ t_storage_offset t' = t_storage_offset t
  ∧ t_size t' = t_size t ∧ t_stride t' = t_stride t.
Proof.
  revert t'. induction l as [self|old IH nt st|old IH rg hooks]; intros t';
    cbn [wrapped].
  - by intros [= <-].
  - destruct (wrapped old t) as [t1|e]; [|done].
    destruct (IH t1 eq_refl) as (H1 & H2 & H3 & H4).
    unfold rebuild_from_type_v2_result, verdict.
    destruct (refuses _); [done|]. intros [= <-].
    by destruct (decide (t_class t1 = nt)).
  - destruct (wrapped old t) as [t1|e]; [|done].
    destruct (IH t1 eq_refl) as (H1 & H2 & H3 & H4).
    unfold rebuild_parameter_result, verdict.
    destruct (refuses _); [done|]. by intros [= <-].
Qed.

Lemma rebuilt_Ok o raw t :
  rebuilt o raw = Ok t →
  t_storage t = loaded_storage o raw
  ∧ t_storage_offset t = ra_storage_offset (rebuild_args o)
  ∧ t_size t = ra_size (rebuild_args o)
  ∧ t_stride t = ra_stride (rebuild_args o)
  ∧ t_requires_grad t = ra_requires_grad (rebuild_args o)
  ∧ t_backward_hooks t = ra_backward_hooks (rebuild_args o).
Proof.
  unfold rebuilt, rebuild_tensor_v2_result, verdict.
  destruct (refuses _); [done|]. by intros [= <-].
Qed.

Lemma load_value_Ok l o v :
  load_value l o = Ok v →
  ∃ raw t0 t, load_read o = Ok raw ∧ rebuilt o raw = Ok t0
              ∧ wrapped l t0 = Ok t ∧ v = VTensor t.
Proof.
  unfold load_value. destruct (load_read o) as [raw|e]; [|done].
  destruct (rebuilt o raw) as [t0|e] eqn:Er; [|done].
  intros E. apply rmap_Ok in E as (t & E & ->). by exists raw, t0, t.
Qed.


(** *** Materialisation and attribute access *)

(** C3.  [_load_tensor] sends the archive reader exactly one request, for
    the record [data/fn] and for element-count times element-size bytes,
    whether or not the read succeeds, and leaves the heap as it was.  When
    the read succeeds, the result is what [torch._utils._rebuild_tensor_v2]
    returns for the wrapped bytes and the stored rebuild arguments: the
    exception of the library when it refuses them, else a tensor over
    exactly these bytes with the stored offset, size, stride,
    [requires_grad] and hooks.  The same single request is all that a
    loader made of closures around this method sends. *)
Theorem load_tensor_single_read (self : Ref) (o : _NotYetLoadedTensor) (w : World) :
  heap w !! self = Some o →
  let request := mkRead ("data/" +:+ pid_fn (storageinfo o))
                   (pid_size (storageinfo o)
                    * _element_size (t_dtype (metatensor o))) in
  let out := _load_tensor self w in
  reads out.2 = reads w ++ [request]
  ∧ heap out.2 = heap w
  ∧ out.1 = match get_storage_from_record (file_reader (archiveinfo o))
                    (rr_name request) (rr_nbytes request) with
            | Ok raw => rmap VTensor (rebuilt o raw)
            | Raise e => Raise e
            end
  ∧ (∀ raw w1,
       (torch_rebuild_tensor_v2
          (mkTypedStorage (t_dtype (metatensor o)) cpu raw None)
          (ra_storage_offset (rebuild_args o)) (ra_size (rebuild_args o))
          (ra_stride (rebuild_args o)) (ra_requires_grad (rebuild_args o))
          (ra_backward_hooks (rebuild_args o)) (ra_metadata (rebuild_args o))
          w1).1 = rebuilt o raw)
  ∧ (∀ raw t, rebuilt o raw = Ok t →
       ts_untyped (t_storage t) = raw
       ∧ t_dtype t = t_dtype (metatensor o)
       ∧ t_device t = cpu
       ∧ t_storage_offset t = ra_storage_offset (rebuild_args o)
       ∧ t_size t = ra_size (rebuild_args o)
       ∧ t_stride t = ra_stride (rebuild_args o)
       ∧ t_requires_grad t = ra_requires_grad (rebuild_args o)
       ∧ t_backward_hooks t = ra_backward_hooks (rebuild_args o))
  ∧ (∀ l, loader_self l = self →
          reads (call_loader l w).2 = reads w ++ [request]).
Proof.
  intros E request out. subst out.
  rewrite (_load_tensor_run _ _ _ E). unfold load_outcome.
  change (load_request o) with request. cbn [fst snd advance reads heap].
  split; [done|]. split; [done|]. split; [|split; [|split]].
  - unfold load_value, load_read. change (load_request o) with request.
    destruct (get_storage_from_record _ _ _) as [raw|e]; [|done].
    by destruct (rebuilt o raw).
  - intros raw w1. by rewrite torch_rebuild_tensor_v2_run.
  - intros raw t Ht.
    destruct (rebuilt_Ok _ _ _ Ht) as (Hs & Hoff & Hsize & Hstride & Hrg & Hh).
    unfold t_dtype, t_device. rewrite Hs. by repeat split.
  - intros l El. rewrite (call_loader_run l o w) by (by rewrite El).
    done.
Qed.

(** C7.  [persistent_load] returns a typed storage whose dtype is that of
    the storage class, on the meta device, without bytes, and with the whole
    persistent id attached as [archiveinfo]; the world, and with it the log
    of archive reads, is unchanged. *)
Theorem persistent_load_meta (pid : Pid) (w : World) :
  let out := persistent_load pid w in
  out.1 = Ok (mkTypedStorage (storage_class_dtype (pid_cls pid)) meta []
                (Some pid))
  ∧ reads out.2 = reads w
  ∧ out.2 = w.
Proof.
  intros out. subst out. unfold persistent_load.
  rewrite (bind_Ok _ _ _ _ _ (persistent_load_block (pid_cls pid) w)).
  unfold ret. cbn [fst snd ts_dtype ts_device ts_untyped]. by repeat split.
Qed.

(** C8.  Materialising a placeholder twice in a row gives the same result
    both times: the same error, or the same tensor, whose data are the
    bytes that the reader returns for the record.  The heap is unchanged,
    and the archive record is requested once by each call. *)
Theorem materialize_twice (p : Ref) (o o' : _NotYetLoadedTensor) (w : World) :
  heap w !! p = Some o →
  heap w !! loader_self (loader_of p o) = Some o' →
  let first := call_load_tensor p w in
  let second := call_load_tensor p first.2 in
  second.1 = first.1
  ∧ (∀ v, first.1 = Ok v →
          ∃ raw t, load_read o' = Ok raw ∧ v = VTensor t
                   ∧ ts_untyped (t_storage t) = raw)
  ∧ (∀ e, load_read o' = Raise e → first.1 = Raise e)
  ∧ heap second.2 = heap w
  ∧ reads first.2 = reads w ++ [load_request o']
  ∧ reads second.2 = reads w ++ [load_request o'; load_request o'].
Proof.
  intros E E' first second. subst first second.
  assert (T : target (heap w) p = Some (loader_of p o, o'))
    by (by apply target_lookup).
  rewrite !call_load_tensor_value, !call_load_tensor_heap, !call_load_tensor_reads.
  rewrite call_load_tensor_heap.
  unfold loaded, requests. rewrite T.
  split; [done|]. split; [|split; [|split; [done|split; [done|]]]].
  - intros v Hv.
    destruct (load_value_Ok _ _ _ Hv) as (raw & t0 & t & Hr & H0 & Ht & ->).
    exists raw, t. split; [done|]. split; [done|].
    destruct (wrapped_storage _ _ _ Ht) as (-> & _).
    destruct (rebuilt_Ok _ _ _ H0) as (-> & _). done.
  - intros e He. unfold load_value. by rewrite He.
  - by rewrite <- app_assoc.
Qed.

(** Reading a name of the allow-list: the attribute of the meta tensor,
    after the warning that the library may emit for it. *)
Lemma getattr_allowed self name o w :
  name ∈ allow_list → heap w !! self = Some o →
  __getattr__ self name w
  = (Tensor_getattr (metatensor o) name,
     advance w [] (audible (filters w) (attribute_warnings name))).
Proof.
  intros Hin E. unfold __getattr__. rewrite decide_True by done.
  unfold bind at 1. rewrite (deref_run _ _ _ E).
  unfold getattr, bind. by rewrite warn_all_run.
Qed.

Lemma getattr_raises self name w :
  name ∉ allow_list → name ≠ "contiguous" →
  __getattr__ self name w =
  (Raise (AttributeError (type_repr +:+ " does not have " +:+ name)), w).
Proof.
  intros Hout Hc. unfold __getattr__. rewrite decide_False by done.
  rewrite decide_False; [done|]. by rewrite list_elem_of_singleton.
Qed.

(** C6, as the code has it.  The allow-list is the twelve names below.
    [__getattr__] on one of them returns what the meta tensor has under
    that name, without a request to the archive and without a change of the
    heap or the filters; the world is unchanged altogether unless the name
    is [volatile], whose getter in the library warns.  On a name that is
    neither on the list nor [contiguous], [stride] and [strides] among
    them, it raises [AttributeError] with a message that starts with the
    type of the placeholder, and leaves the world as it was. *)
Theorem getattr_guard (self : Ref) (name : string) (w : World) :
  let listed := ["dtype"; "grad"; "grad_fn"; "layout"; "names"; "ndim";
                 "output_nr"; "requires_grad"; "retains_grad"; "size";
                 "shape"; "volatile"] in
  (name ∈ listed →
   ∀ o, heap w !! self = Some o →
        let out := __getattr__ self name w in
        out.1 = Tensor_getattr (metatensor o) name
        ∧ reads out.2 = reads w
        ∧ heap out.2 = heap w
        ∧ filters out.2 = filters w
        ∧ (name ≠ "volatile" → out.2 = w)
        ∧ (name = "volatile" →
           shown out.2
           = shown w ++ audible (filters w)
                          [mkWarning UserWarning
                             "volatile was removed (Variable.volatile is always False)"]))
  ∧ (name ∉ listed → name ≠ "contiguous" →
     __getattr__ self name w =
     (Raise (AttributeError
               ("<class 'lightning.fabric.utilities.load._NotYetLoadedTensor'>"
                +:+ " does not have " +:+ name)), w)).
Proof.
  intros listed. subst listed. split.
  - intros Hin o E out. subst out.
    rewrite (getattr_allowed self name o w Hin E).
    cbn [fst snd advance reads heap filters shown].
    rewrite app_nil_r. repeat split.
    + intros Hv. unfold attribute_warnings. rewrite decide_False by done.
      apply advance_nil.
    + intros ->. reflexivity.
  - intros Hout Hc. by apply getattr_raises.
Qed.

(** *** The rebuild hooks *)

Lemma set_load_tensor_run p o l w :
  heap w !! p = Some o →
  set_load_tensor p l w = (Ok tt, set_heap (<[p := with_loader o l]> (heap w)) w).
Proof. intros E. unfold set_load_tensor. by rewrite E. Qed.

Lemma assign_closure_run p o l w :
  heap w !! p = Some o →
  (let* old_lt := get_load_tensor p in
   do set_load_tensor p (l old_lt) then ret (VNotYetLoaded p)) w
  = (Ok (VNotYetLoaded p),
     set_heap (<[p := with_loader o (l (loader_of p o))]> (heap w)) w).
Proof.
  intros E. unfold bind at 1. rewrite (get_load_tensor_run _ _ _ E).
  unfold bind. by rewrite (set_load_tensor_run _ _ _ _ E).
Qed.

Lemma lookup_assigned p o l w :
  heap w !! p = Some o →
  heap (set_heap (<[p := with_loader o l]> (heap w)) w) !! p
  = Some (with_loader o l).
Proof.
  intros E. simpl. apply list_lookup_insert_eq. by eapply lookup_lt_Some.
Qed.

(** The library rebuild around a build function, once the outcome of that
    function is known. *)
Lemma torch_rebuild_from_type_v2_run func new_type args state w r w1 :
  func args w = (r, w1) →
  torch_rebuild_from_type_v2 func new_type args state w =
  match r with
  | Ok v =>
      (match v with
       | VTensor t => rmap VTensor (rebuild_from_type_v2_result t new_type state)
       | _ => Raise (no_attribute v "as_subclass")
       end,
       advance w1 [] (audible (filters w1) (emits call_rebuild_from_type_v2)))
  | Raise e => (Raise e, w1)
  end.
Proof.
  intros E. unfold torch_rebuild_from_type_v2. unfold bind at 1. rewrite E.
  destruct r as [v|e]; [|done].
  exact (torch_rebuild_from_type_v2_const v new_type state w1).
Qed.

Lemma torch_rebuild_from_type_v2_Ok func new_type args state w r w' :
  torch_rebuild_from_type_v2 func new_type args state w = (Ok r, w') →
  ∃ t, r = VTensor t.
Proof.
  destruct (func args w) as [r0 w1] eqn:E.
  rewrite (torch_rebuild_from_type_v2_run _ _ _ _ _ _ _ E).
  destruct r0 as [v|e]; [|done]. intros [= Hr _].
  destruct v; try done. apply rmap_Ok in Hr as (t' & _ & ->). by eexists.
Qed.

(** C1, as the code has it.  When the inner build function returns a
    placeholder, [rebuild_from_type_v2] returns that same placeholder: no
    object is added to the heap, nothing is read from the archive and
    nothing is shown; only the attribute [_load_tensor] of the placeholder
    changes, to a closure that calls the previous loader and then applies
    [torch._tensor._rebuild_from_type_v2] with the captured type and state
    to the tensor it got.  When the inner build function returns anything
    else, the result is that of the library rebuild, run at once, and a
    result it returns is a real tensor. *)
Theorem rebuild_from_type_v2_composes (func : list Value → M Value)
    (new_type : TensorClass) (args : list Value) (state : PyDict)
    (w w1 : World) (r : Value) :
  func args w = (Ok r, w1) →
  (∀ p o, r = VNotYetLoaded p → heap w1 !! p = Some o →
     let closure := FromTypeClosure (loader_of p o) new_type state in
     let w2 := set_heap (<[p := with_loader o closure]> (heap w1)) w1 in
     rebuild_from_type_v2 func new_type args state w = (Ok (VNotYetLoaded p), w2)
     ∧ length (heap w2) = length (heap w1)
     ∧ reads w2 = reads w1
     ∧ shown w2 = shown w1
     ∧ heap w2 !! p = Some (with_loader o closure)
     ∧ call_load_tensor p w2 =
       (let* t := call_loader (loader_of p o) in
        torch_rebuild_from_type_v2 (fun _ => ret t) new_type [] state) w2)
  ∧ ((∀ p, r ≠ VNotYetLoaded p) →
     rebuild_from_type_v2 func new_type args state w
     = torch_rebuild_from_type_v2 func new_type args state w1
     ∧ ∀ r' w2, rebuild_from_type_v2 func new_type args state w = (Ok r', w2) →
                ∃ t, r' = VTensor t).
Proof.
  intros Ef. split.
  - intros p o -> E closure w2.
    assert (Ew2 : heap w2 !! p = Some (with_loader o closure))
      by (by apply lookup_assigned).
    repeat split; try done.
    + unfold rebuild_from_type_v2. unfold bind at 1. rewrite Ef.
      by rewrite (assign_closure_run p o (fun old => FromTypeClosure old new_type state)).
    + simpl. by rewrite length_insert.
    + unfold call_load_tensor. unfold bind at 1.
      by rewrite (get_load_tensor_run _ _ _ Ew2).
  - intros Hr.
    assert (E : rebuild_from_type_v2 func new_type args state w
                = torch_rebuild_from_type_v2 func new_type args state w1).
    { unfold rebuild_from_type_v2. unfold bind at 1. rewrite Ef.
      destruct r; try done. by destruct (Hr p). }
    split; [done|]. intros r' w2. rewrite E.
    apply torch_rebuild_from_type_v2_Ok.
Qed.


(** *** Lazy and eager unpickling of a nested parameter *)

Lemma unpack_pack storage ra :
  unpack_rebuild_tensor_args (VStorage storage :: pack_rebuild_args ra)
  = Some (storage, ra).
Proof.
  destruct ra as [off size stride rg hooks md]. unfold pack_rebuild_args.
  cbn [ra_storage_offset ra_size ra_stride ra_requires_grad ra_backward_hooks
       ra_metadata app unpack_rebuild_tensor_args].
  rewrite !(mapM_fmap_Some int_of VInt) by done. by destruct md.
Qed.

(** What [rebuild_tensor_v2] does: the library builds the meta tensor or
    refuses; then the storage must carry [archiveinfo]; then the
    placeholder is allocated. *)
Lemma rebuild_tensor_v2_run storage ra ai w :
  rebuild_tensor_v2 storage (ra_storage_offset ra) (ra_size ra) (ra_stride ra)
    (ra_requires_grad ra) (ra_backward_hooks ra) (ra_metadata ra) ai w =
  let w1 := advance w [] (audible (filters w) (emits call_rebuild_tensor_v2)) in
  match rebuild_tensor_v2_result storage ra with
  | Ok metatensor =>
      match ts_archiveinfo storage with
      | Some pid =>
          (Ok (VNotYetLoaded (length (heap w))),
           set_heap (heap w ++ [mkNotYetLoaded metatensor ai pid ra None]) w1)
      | None =>
          (Raise (AttributeError
                    "'TypedStorage' object has no attribute 'archiveinfo'"), w1)
      end
  | Raise e => (Raise e, w1)
  end.
Proof.
  unfold rebuild_tensor_v2. unfold bind at 1.
  rewrite torch_rebuild_tensor_v2_run.
  destruct (rebuild_tensor_v2_result storage ra) as [mt|e]; [|done].
  unfold bind at 1. destruct (ts_archiveinfo storage) as [pid|]; [|done].
  unfold ret at 1. unfold bind, alloc, ret, set_heap, advance; simpl.
  by destruct ra.
Qed.

Lemma rebuild_parameter_placeholder p o rg hooks w :
  heap w !! p = Some o →
  rebuild_parameter (VNotYetLoaded p) rg hooks w =
  (Ok (VNotYetLoaded p),
   set_heap (<[p := with_loader o (ParameterClosure (loader_of p o) rg hooks)]>
               (heap w)) w).
Proof.
  intros E. unfold rebuild_parameter.
  by rewrite (assign_closure_run p o (fun old => ParameterClosure old rg hooks)).
Qed.

Lemma insert_last {A} (l : list A) (x y : A) :
  <[length l := x]> (l ++ [y]) = l ++ [x].
Proof.
  rewrite <- (Nat.add_0_r (length l)). by rewrite insert_app_r.
Qed.

Lemma call_closures_self c p : loader_self (call_closures c p) = p.
Proof. induction c; simpl; auto. Qed.

Lemma call_placeholder_loader ai c p :
  loader_of p (call_placeholder ai c p) = call_closures c p.
Proof. by destruct c. Qed.






(** *** The heaps that the hooks build *)

Lemma heap_ok_nil : heap_ok [].
Proof. split; [by intros p o|by constructor]. Qed.

Lemma heap_ok_alloc h o :
  heap_ok h → _load_tensor_attr o = None → meta_consistent o →
  heap_ok (h ++ [o]).
Proof.
  intros [Hroot Hmeta] Hattr Ho. split.
  - intros p o' E. apply lookup_app_Some in E as [E|[Hlen E]].
    + by apply Hroot.
    + apply list_lookup_singleton_Some in E as [Hp <-].
      unfold loader_of. rewrite Hattr. simpl. lia.
  - apply Forall_app. split; [done|]. by constructor.
Qed.

Lemma heap_ok_assign h p o l :
  heap_ok h → h !! p = Some o → loader_self l = p →
  heap_ok (<[p := with_loader o l]> h).
Proof.
  intros [Hroot Hmeta] E Hl. split.
  - intros q o' Eq. destruct (decide (p = q)) as [<-|Hne].
    + rewrite list_lookup_insert_eq in Eq by (by eapply lookup_lt_Some).
      by injection Eq as <-.
    + rewrite list_lookup_insert_ne in Eq by done. by apply Hroot.
  - apply Forall_insert; [done|].
    rewrite Forall_lookup in Hmeta. exact (Hmeta p o E).
Qed.

Lemma rebuild_tensor_v2_heap_ok storage off size stride rg hooks md ai w :
  heap_ok (heap w) →
  heap_ok (heap (rebuild_tensor_v2 storage off size stride rg hooks md ai w).2).
Proof.
  intros Hok.
  pose proof (rebuild_tensor_v2_run storage
                (mkRebuildArgs off size stride rg hooks md) ai w) as Hrun.
  cbn [ra_storage_offset ra_size ra_stride ra_requires_grad ra_backward_hooks
       ra_metadata] in Hrun. rewrite Hrun. cbv zeta.
  destruct (rebuild_tensor_v2_result _ _) as [mt|e] eqn:Em; [|done].
  destruct (ts_archiveinfo storage) as [pid|]; [|done].
  cbn [snd set_heap heap]. apply heap_ok_alloc; [done..|].
  unfold rebuild_tensor_v2_result, verdict in Em.
  destruct (refuses _); [done|]. by injection Em as <-.
Qed.

Lemma torch_rebuild_parameter_heap data rg hooks w :
  heap (torch_rebuild_parameter data rg hooks w).2 = heap w.
Proof. by rewrite torch_rebuild_parameter_run. Qed.

Lemma rebuild_parameter_heap_ok data rg hooks w :
  heap_ok (heap w) → heap_ok (heap (rebuild_parameter data rg hooks w).2).
Proof.
  intros Hok. destruct data;
    try (unfold rebuild_parameter; by rewrite torch_rebuild_parameter_heap).
  destruct (heap w !! p) as [o|] eqn:E.
  - rewrite (rebuild_parameter_placeholder _ _ _ _ _ E). cbn [snd set_heap heap].
    apply heap_ok_assign; [done..|]. by apply (proj1 Hok).
  - unfold rebuild_parameter, bind, get_load_tensor, bind, deref. by rewrite E.
Qed.

Lemma ex_world_heap_ok : heap_ok (heap (ex_world (runtime:=quiet))).
Proof.
  apply (heap_ok_alloc [] ex_placeholder heap_ok_nil); [done|by split].
Qed.

Lemma rebuild_from_type_v2_heap_ok func new_type args state w :
  (∀ w', heap_ok (heap w') → heap_ok (heap (func args w').2)) →
  heap_ok (heap w) →
  heap_ok (heap (rebuild_from_type_v2 func new_type args state w).2).
Proof.
  intros Hfunc Hok. unfold rebuild_from_type_v2. unfold bind at 1.
  pose proof (Hfunc w Hok) as Hok1.
  destruct (func args w) as [[r|e] w1]; cbn [snd] in *; [|done].
  assert (Hnow : heap_ok (heap (torch_rebuild_from_type_v2 func new_type args
                                 state w1).2)).
  { pose proof (Hfunc w1 Hok1) as Hok2.
    destruct (func args w1) as [r' w2] eqn:E2; cbn [snd] in *.
    rewrite (torch_rebuild_from_type_v2_run _ _ _ _ _ _ _ E2).
    by destruct r'. }
  destruct r; try done.
  destruct (heap w1 !! p) as [o|] eqn:E.
  - rewrite (assign_closure_run p o
               (fun old => FromTypeClosure old new_type state) w1 E).
    cbn [snd set_heap heap].
    apply heap_ok_assign; [done..|]. by apply (proj1 Hok1).
  - unfold bind, get_load_tensor, bind, deref. by rewrite E.
Qed.

(** In such a heap the loader of a placeholder ends in its own method, and
    its meta tensor agrees with its rebuild arguments. *)
Lemma heap_ok_lookup h p o :
  heap_ok h → h !! p = Some o →
  loader_self (loader_of p o) = p ∧ meta_consistent o.
Proof.
  intros [Hroot Hmeta] E. split; [by apply Hroot|].
  rewrite Forall_lookup in Hmeta. exact (Hmeta p o E).
Qed.

(** *** Metadata *)

(** C4, as the code has it.  On a placeholder built by the hooks, [shape]
    and [dtype] are read from the meta tensor, without a change of the
    world, and they are the shape and dtype of the tensor that
    materialising the placeholder gives; the stride stored in the meta
    tensor is the stride of that tensor as well, but [stride] is not on the
    allow-list: reading it through the placeholder raises
    [AttributeError]. *)
Theorem metadata_before_materialization (p : Ref) (o : _NotYetLoadedTensor)
    (w : World) :
  heap w !! p = Some o →
  loader_self (loader_of p o) = p →
  meta_consistent o →
  __getattr__ p "shape" w = (Ok (VTuple (VInt <$> t_size (metatensor o))), w)
  ∧ __getattr__ p "dtype" w = (Ok (VDtype (t_dtype (metatensor o))), w)
  ∧ (∀ t, (call_load_tensor p w).1 = Ok (VTensor t) →
          (__getattr__ p "shape" w).1 = Tensor_getattr t "shape"
          ∧ (__getattr__ p "dtype" w).1 = Tensor_getattr t "dtype"
          ∧ t_stride (metatensor o) = t_stride t)
  ∧ __getattr__ p "stride" w =
    (Raise (AttributeError (type_repr +:+ " does not have stride")), w).
Proof.
  intros E Hroot [Hsize Hstride].
  assert (Es : __getattr__ p "shape" w
               = (Ok (VTuple (VInt <$> t_size (metatensor o))), w)).
  { rewrite (getattr_allowed p "shape" o w); [|by apply (bool_decide_unpack _)|done].
    by rewrite advance_nil. }
  assert (Ed : __getattr__ p "dtype" w
               = (Ok (VDtype (t_dtype (metatensor o))), w)).
  { rewrite (getattr_allowed p "dtype" o w); [|by apply (bool_decide_unpack _)|done].
    by rewrite advance_nil. }
  split; [done|]. split; [done|]. split.
  - intros t Ht. rewrite Es, Ed. cbn [fst].
    rewrite call_load_tensor_value in Ht. unfold loaded in Ht.
    rewrite (target_lookup _ _ o o) in Ht by (by rewrite ?Hroot).
    destruct (load_value_Ok _ _ _ Ht) as (raw & t0 & t' & _ & H0 & Hw & [= <-]).
    destruct (wrapped_storage _ _ _ Hw) as (Hs & _ & Hz & Hd).
    destruct (rebuilt_Ok _ _ _ H0) as (Hs0 & _ & Hz0 & Hd0 & _).
    unfold Tensor_getattr; simpl. unfold t_dtype.
    by rewrite Hs, Hs0, Hz, Hz0, Hd, Hd0, Hsize, Hstride.
  - apply getattr_raises; [|done]. by apply (bool_decide_unpack _).
Qed.


(** *** Loops over placeholders *)



Lemma collects_ret {A} (a : A) w : collects w [] (ret a w) a.
Proof. unfold collects, ret; simpl. by rewrite app_nil_r. Qed.

Lemma collects_load p w :
  collects w [p] (call_load_tensor p w) (loaded_value (heap w) p).
Proof.
  unfold collects.
  rewrite call_load_tensor_heap, call_load_tensor_filters,
    call_load_tensor_value, call_load_tensor_reads.
  split; [done|]. split; [done|].
  unfold loaded_value. cbn [forallb fmap list_fmap concat]. unfold loadable.
  rewrite app_nil_r. by destruct (loaded (heap w) p).
Qed.

(** A loop that materialises item by item. *)
Lemma for_each_collects {A B} (g : A → M B) (ps : A → list Ref)
    (e : list _NotYetLoadedTensor → A → B) (items : list A) :
  Forall (λ a, ∀ w, collects w (ps a) (g a w) (e (heap w) a)) items →
  ∀ w, collects w (concat (ps <$> items)) (for_each g items w)
         (e (heap w) <$> items).
Proof.
  induction 1 as [|a items Ha _ IH]; intros w.
  - apply collects_ret.
  - cbn [for_each fmap list_fmap concat]. unfold bind at 1.
    destruct (Ha w) as (Hh & Hf & Hr).
    destruct (g a w) as [[b|err] w1]; cbn [fst snd] in *.
    + destruct Hr as (Hok & -> & Hreads).
      unfold bind at 1. destruct (IH w1) as (Hh' & Hf' & Hr').
      fold (for_each g) in *.
      destruct (for_each g items w1) as [[bs|err] w2]; cbn [fst snd] in *.
      * destruct Hr' as (Hok' & -> & Hreads').
        unfold collects, ret; cbn [fst snd]. rewrite Hh in *.
        split; [congruence|]. split; [congruence|].
        rewrite forallb_app, Hok, Hok', fmap_app, concat_app, Hreads', Hreads.
        by rewrite app_assoc.
      * unfold collects; cbn [fst snd]. rewrite Hh in *.
        split; [congruence|]. split; [congruence|].
        by rewrite forallb_app, Hok, Hr'.
    + unfold collects; cbn [fst snd].
      split; [done|]. split; [done|].
      by rewrite forallb_app, Hr.
Qed.

Lemma collects_bind_ret {A B} w ps (m : M A) (f : A → B) x :
  collects w ps (m w) x → collects w ps ((let* a := m in ret (f a)) w) (f x).
Proof.
  unfold collects, bind. destruct (m w) as [[a|err] w1]; cbn [fst snd].
  - intros (Hh & Hf & Hok & -> & Hr). by repeat split.
  - intros (Hh & Hf & Hr). by repeat split.
Qed.

(** The items of a container that can be rebuilt. *)
Lemma Forall_rebuildable {A} (f : A → Value) (Q : A → Prop) items :
  Forall (λ a, rebuildable (f a) = true → Q a) items →
  forallb (λ a, rebuildable (f a)) items = true →
  Forall Q items.
Proof.
  induction 1 as [|a items Ha _ IH]; [done|]. cbn [forallb].
  intros [Hr Hrest]%andb_prop. constructor; auto.
Qed.

Lemma materialize_collects (c : Value) :
  rebuildable c = true →
  ∀ w, collects w (placeholders c) (_materialize_tensors c w)
         (replace_placeholders (loaded_value (heap w)) c).
Proof.
  unfold _materialize_tensors.
  induction c as [v Hv|items IH|items IH|items IH] using Value_nested_ind;
    intros Hreb w.
  - destruct v; try done; try apply collects_ret. apply collects_load.
  - cbn [apply_to_collection placeholders replace_placeholders rebuildable] in *.
    apply (collects_bind_ret _ _ _ VTuple).
    apply (for_each_collects _ placeholders
             (λ h, replace_placeholders (loaded_value h))).
    exact (Forall_rebuildable (λ a, a) _ items IH Hreb).
  - cbn [apply_to_collection placeholders replace_placeholders rebuildable] in *.
    apply (collects_bind_ret _ _ _ VList).
    apply (for_each_collects _ placeholders
             (λ h, replace_placeholders (loaded_value h))).
    exact (Forall_rebuildable (λ a, a) _ items IH Hreb).
  - cbn [apply_to_collection placeholders replace_placeholders rebuildable] in *.
    apply (collects_bind_ret _ _ _ VDict).
    apply (for_each_collects _ (λ kv, placeholders kv.2)
             (λ h kv, (kv.1, replace_placeholders (loaded_value h) kv.2))).
    pose proof (Forall_rebuildable snd _ items IH Hreb) as Hall.
    eapply Forall_impl; [exact Hall|]. intros [k v] Hkv w'. cbn [fst snd] in *.
    by apply (collects_bind_ret _ _ _ (λ x, (k, x))).
Qed.

(** The traversal changes neither the heap nor the filters, whatever the
    collection holds and whether or not it returns. *)
Lemma for_each_frame {A B} (g : A → M B) (items : list A) :
  Forall (λ a, ∀ w, heap (g a w).2 = heap w ∧ filters (g a w).2 = filters w)
    items →
  ∀ w, heap (for_each g items w).2 = heap w
       ∧ filters (for_each g items w).2 = filters w.
Proof.
  induction 1 as [|a items Ha _ IH]; intros w; [split; reflexivity|].
  cbn [for_each]. destruct (Ha w) as [Hh Hf].
  destruct (g a w) as [[b|err] w1] eqn:E; cbn [fst snd] in *.
  - rewrite (bind_Ok _ _ _ _ _ E). destruct (IH w1) as [Hh' Hf'].
    fold (for_each g) in *.
    destruct (for_each g items w1) as [[bs|err] w2] eqn:E2; cbn [fst snd] in *.
    + rewrite (bind_Ok _ _ _ _ _ E2). unfold ret; cbn [fst snd].
      split; congruence.
    + rewrite (bind_Raise _ _ _ _ _ E2). cbn [fst snd]. split; congruence.
  - rewrite (bind_Raise _ _ _ _ _ E). by split.
Qed.

Lemma frame_bind_ret {A B} (m : M A) (f : A → B) w :
  heap (m w).2 = heap w ∧ filters (m w).2 = filters w →
  heap ((let* a := m in ret (f a)) w).2 = heap w
  ∧ filters ((let* a := m in ret (f a)) w).2 = filters w.
Proof. unfold bind. by destruct (m w) as [[a|err] w1]. Qed.

Lemma materialize_frame (c : Value) :
  ∀ w, heap (_materialize_tensors c w).2 = heap w
       ∧ filters (_materialize_tensors c w).2 = filters w.
Proof.
  unfold _materialize_tensors.
  induction c as [v Hv|items IH|items IH|items IH] using Value_nested_ind;
    intros w.
  - destruct v; try done. cbn [apply_to_collection].
    by rewrite call_load_tensor_heap, call_load_tensor_filters.
  - cbn [apply_to_collection]. apply frame_bind_ret. by apply for_each_frame.
  - cbn [apply_to_collection]. apply frame_bind_ret. by apply for_each_frame.
  - cbn [apply_to_collection]. apply frame_bind_ret. apply for_each_frame.
    eapply Forall_impl; [exact IH|]. intros [k v] Hkv w'. cbn [fst snd] in *.
    by apply frame_bind_ret.
Qed.

(** A [range] on the way of the traversal: the call never returns. *)
Lemma for_each_not_Ok {A B} (g : A → M B) (items : list A) :
  Exists (λ a, ∀ w, ¬ is_Ok (g a w).1) items →
  ∀ w, ¬ is_Ok (for_each g items w).1.
Proof.
  induction 1 as [a items Ha|a items _ IH]; intros w; cbn [for_each];
    unfold bind at 1.
  - specialize (Ha w). destruct (g a w) as [[b|err] w1]; cbn [fst] in *.
    + destruct Ha. by eexists.
    + by intros [? ?].
  - destruct (g a w) as [[b|err] w1]; [|by intros [? ?]].
    unfold bind. specialize (IH w1). fold (for_each g) in *.
    destruct (for_each g items w1) as [[bs|err] w2]; cbn [fst] in *.
    + destruct IH. by eexists.
    + by intros [? ?].
Qed.

Lemma not_Ok_bind_ret {A B} (m : M A) (f : A → B) w :
  ¬ is_Ok (m w).1 → ¬ is_Ok ((let* a := m in ret (f a)) w).1.
Proof.
  unfold bind. destruct (m w) as [[a|err] w1]; cbn [fst].
  - intros H. destruct H. by eexists.
  - intros _ [? ?]. done.
Qed.

Lemma Exists_not_rebuildable {A} (f : A → Value) (Q : A → Prop) items :
  Forall (λ a, rebuildable (f a) = false → Q a) items →
  forallb (λ a, rebuildable (f a)) items = false →
  Exists Q items.
Proof.
  induction 1 as [|a items Ha _ IH]; [done|]. cbn [forallb].
  destruct (rebuildable (f a)) eqn:E; cbn [andb]; intros Hrest.
  - apply Exists_cons_tl. auto.
  - apply Exists_cons_hd. auto.
Qed.

Lemma materialize_range (c : Value) :
  rebuildable c = false → ∀ w, ¬ is_Ok (_materialize_tensors c w).1.
Proof.
  unfold _materialize_tensors.
  induction c as [v Hv|items IH|items IH|items IH] using Value_nested_ind;
    intros Hreb w.
  - destruct v; try done. by intros [? ?].
  - cbn [apply_to_collection rebuildable] in *. apply not_Ok_bind_ret.
    apply for_each_not_Ok.
    exact (Exists_not_rebuildable (λ a, a) _ items IH Hreb).
  - cbn [apply_to_collection rebuildable] in *. apply not_Ok_bind_ret.
    apply for_each_not_Ok.
    exact (Exists_not_rebuildable (λ a, a) _ items IH Hreb).
  - cbn [apply_to_collection rebuildable] in *. apply not_Ok_bind_ret.
    apply for_each_not_Ok.
    pose proof (Exists_not_rebuildable snd _ items IH Hreb) as Hex.
    eapply Exists_impl; [exact Hex|]. intros [k v] Hkv w'. cbn [fst snd] in *.
    by apply not_Ok_bind_ret.
Qed.


(** What stands for a placeholder is a tensor or the placeholder itself. *)
Lemma loaded_tensor h p v : loaded h p = Ok v → ∃ t, v = VTensor t.
Proof.
  unfold loaded. destruct (target h p) as [[l o]|]; [|done].
  intros Hv. destruct (load_value_Ok _ _ _ Hv) as (_ & _ & t & _ & _ & _ & ->).
  by eexists.
Qed.

Lemma loaded_value_unreached h p : unreached (loaded_value h p) = [].
Proof.
  unfold loaded_value. destruct (loaded h p) as [v|e] eqn:E; [|done].
  by destruct (loaded_tensor _ _ _ E) as [t ->].
Qed.

(** The placeholders inside sets and objects are where they were. *)
Lemma unreached_replace h (c : Value) :
  unreached (replace_placeholders (loaded_value h) c) = unreached c.
Proof.
  induction c as [v Hv|items IH|items IH|items IH] using Value_nested_ind.
  - destruct v; try done. apply loaded_value_unreached.
  - cbn [replace_placeholders unreached]. f_equal.
    induction IH as [|x items Hx _ IH']; [done|].
    cbn [fmap list_fmap]. by rewrite Hx, IH'.
  - cbn [replace_placeholders unreached]. f_equal.
    induction IH as [|x items Hx _ IH']; [done|].
    cbn [fmap list_fmap]. by rewrite Hx, IH'.
  - cbn [replace_placeholders unreached]. f_equal.
    induction IH as [|[k x] items Hx _ IH']; [done|].
    cbn [fmap list_fmap fst snd] in *. by rewrite Hx, IH'.
Qed.


(** *** Operator dispatch and warnings *)



(** C10, as the code has it.  [_load_tensor] leaves the warning filters as
    they were, and what it shows is what the filters in force let through
    of the warnings of reading the record, of taking its untyped storage and
    of the tensor rebuild: the warnings of the storage wrapping are dropped
    whatever their category, although the same call outside the block
    would be subject to the filters in force.  [persistent_load] silences
    its two library calls in the same way: it shows nothing and leaves the
    filters as they were. *)
Theorem warnings_silenced_around_storage (self : Ref)
    (o : _NotYetLoadedTensor) (w : World) :
  heap w !! self = Some o →
  let out := _load_tensor self w in
  filters out.2 = filters w
  ∧ (is_Ok out.1 →
     shown out.2
     = shown w ++ audible (filters w)
                    (emits call_get_storage_from_record
                     ++ emits call_typed_storage
                     ++ emits call_rebuild_tensor_v2))
  ∧ (∀ uts dtype,
       catch_warnings (do simplefilter ignore then TypedStorage_wrap uts dtype) w
       = (Ok (mkTypedStorage dtype cpu uts None), w)
       ∧ shown (TypedStorage_wrap uts dtype w).2
         = shown w ++ audible (filters w) (emits call_TypedStorage_wrap))
  ∧ (∀ pid w',
       shown (persistent_load pid w').2 = shown w'
       ∧ filters (persistent_load pid w').2 = filters w').
Proof.
  intros E out. subst out. rewrite (_load_tensor_run _ _ _ E).
  unfold load_outcome. cbn [fst snd advance filters shown].
  split; [done|]. split.
  { intros [v Hv].
    destruct (load_value_Ok _ _ _ Hv) as (raw & t0 & t & Hr & H0 & _).
    unfold load_emitted. rewrite Hr, H0. unfold wrapper_warnings.
    cbn [wrapper_calls fmap list_fmap concat]. by rewrite app_nil_r. }
  split.
  { intros uts dtype. split.
    - unfold TypedStorage_wrap. apply silenced_run.
    - unfold TypedStorage_wrap, bind. by rewrite external_run. }
  intros pid w'. by rewrite persistent_load_run.
Qed.

End Properties.

(** ** The unpickler and further properties *)

Section Unpickled.

Context `{runtime : TorchRuntime}.

(** *** Unpickling calls *)

Lemma wrap_parameter ai d p rg h :
  with_loader (call_placeholder ai d p)
    (ParameterClosure (loader_of p (call_placeholder ai d p)) rg h)
  = call_placeholder ai (CParameter d rg h) p.
Proof. by rewrite call_placeholder_loader. Qed.

Lemma wrap_typed_parameter ai d p rg h nt st :
  with_loader (call_placeholder ai (CParameter d rg h) p)
    (FromTypeClosure (loader_of p (call_placeholder ai (CParameter d rg h) p))
       nt st)
  = call_placeholder ai (CTypedParameter d rg h nt st) p.
Proof. done. Qed.

(** The hook for tensors as the lazy unpickler calls it. *)
Lemma lazy_tensor_run ai pid ra w :
  call_global (lazy_rebuild_tensor_v2 ai)
    (VStorage (meta_storage pid) :: pack_rebuild_args ra) w =
  let w1 := advance w [] (audible (filters w) (emits call_rebuild_tensor_v2)) in
  match refuses (meta_request (CTensor pid ra)) with
  | Some e => (Raise e, w1)
  | None =>
      (Ok (VNotYetLoaded (length (heap w))),
       set_heap (heap w ++ [call_placeholder ai (CTensor pid ra)
                              (length (heap w))]) w1)
  end.
Proof.
  cbn [call_global]. unfold partial_rebuild_tensor_v2. rewrite unpack_pack.
  rewrite rebuild_tensor_v2_run. cbv zeta.
  unfold rebuild_tensor_v2_result, verdict.
  change (req_rebuild_tensor_v2 (meta_storage pid) ra)
    with (meta_request (CTensor pid ra)).
  by destruct (refuses _).
Qed.

(** Unpickling a call lazily.  The library builds the meta tensor or
    refuses; when it accepts, one placeholder is added to the heap, with
    the closures of the call around its method.  Nothing is read. *)
Lemma unpickle_lazy_run ai c w :
  unpickle (lazy_unpickler ai) c w =
  let w1 := advance w [] (audible (filters w) (emits call_rebuild_tensor_v2)) in
  match refuses (meta_request c) with
  | Some e => (Raise e, w1)
  | None =>
      (Ok (VNotYetLoaded (length (heap w))),
       set_heap (heap w ++ [call_placeholder ai c (length (heap w))]) w1)
  end.
Proof.
  revert w.
  induction c as [pid ra|d IH rg h|pid ra nt st|d IH rg h nt st]; intros w;
    cbn [unpickle lazy_unpickler u_persistent_load u_find_class].
  - rewrite (bind_Ok _ _ _ _ _ (persistent_load_run pid w)).
    change (find_class ai "torch._utils" "_rebuild_tensor_v2")
      with (lazy_rebuild_tensor_v2 ai).
    apply lazy_tensor_run.
  - specialize (IH w). cbv zeta in *.
    change (meta_request (CParameter d rg h)) with (meta_request d).
    destruct (refuses (meta_request d)) as [e|].
    { by rewrite (bind_Raise _ _ _ _ _ IH). }
    rewrite (bind_Ok _ _ _ _ _ IH).
    change (find_class ai "torch._utils" "_rebuild_parameter")
      with (lazy_rebuild_parameter ai).
    cbn [call_global unpack_parameter_args].
    set (p := length (heap w)). set (o := call_placeholder ai d p).
    erewrite (rebuild_parameter_placeholder p o);
      [|by apply list_lookup_middle].
    unfold set_heap. cbn [heap reads filters shown advance]. subst p.
    rewrite insert_last. subst o. by rewrite wrap_parameter.
  - rewrite (bind_Ok _ _ _ _ _ (persistent_load_run pid w)).
    change (find_class ai "torch._tensor" "_rebuild_from_type_v2")
      with (lazy_rebuild_from_type_v2 ai).
    change (find_class ai "torch._utils" "_rebuild_tensor_v2")
      with (lazy_rebuild_tensor_v2 ai).
    cbn [call_from_type]. unfold rebuild_from_type_v2.
    pose proof (lazy_tensor_run ai pid ra w) as Hrun. cbv zeta in *.
    change (meta_request (CTypedTensor pid ra nt st))
      with (meta_request (CTensor pid ra)).
    destruct (refuses (meta_request (CTensor pid ra))) as [e|].
    { by rewrite (bind_Raise _ _ _ _ _ Hrun). }
    rewrite (bind_Ok _ _ _ _ _ Hrun).
    set (p := length (heap w)).
    erewrite (assign_closure_run p _ (fun old => FromTypeClosure old nt st));
      [|by apply list_lookup_middle].
    unfold set_heap. cbn [heap reads filters shown advance]. subst p.
    by rewrite insert_last.
  - specialize (IH w). cbv zeta in *.
    change (meta_request (CTypedParameter d rg h nt st)) with (meta_request d).
    change (find_class ai "torch._tensor" "_rebuild_from_type_v2")
      with (lazy_rebuild_from_type_v2 ai).
    change (find_class ai "torch._utils" "_rebuild_parameter")
      with (lazy_rebuild_parameter ai).
    cbn [call_from_type]. unfold rebuild_from_type_v2.
    destruct (refuses (meta_request d)) as [e|].
    { rewrite (bind_Raise _ _ _ _ _ IH). unfold bind.
      cbn [call_global unpack_parameter_args]. done. }
    rewrite (bind_Ok _ _ _ _ _ IH).
    set (p := length (heap w)). set (o := call_placeholder ai d p).
    erewrite bind_Ok; cycle 1.
    { cbn [call_global unpack_parameter_args].
      apply (rebuild_parameter_placeholder p o). by apply list_lookup_middle. }
    erewrite (assign_closure_run p _ (fun old => FromTypeClosure old nt st));
      cycle 1.
    { unfold set_heap. cbn [heap]. subst p. rewrite insert_last.
      by apply list_lookup_middle. }
    unfold set_heap. cbn [heap reads filters shown advance]. subst p.
    rewrite !insert_last. subst o.
    by rewrite wrap_parameter, wrap_typed_parameter.
Qed.


(** *** Failing loads *)

Lemma first_failure_None h ps :
  first_failure h ps = None ↔ forallb (loadable h) ps = true.
Proof.
  induction ps as [|p ps IH]; [done|]. cbn [first_failure forallb].
  unfold loadable at 1. destruct (loaded h p); simpl.
  - rewrite <- IH. by destruct (first_failure h ps).
  - done.
Qed.

Lemma first_failure_app h xs ys :
  first_failure h (xs ++ ys) =
  match first_failure h xs with
  | Some r => Some r
  | None => (fun r => (xs ++ r.1, r.2)) <$> first_failure h ys
  end.
Proof.
  induction xs as [|p xs IH]; cbn [first_failure app].
  - by destruct (first_failure h ys) as [[? ?]|].
  - destruct (loaded h p); [|done]. rewrite IH.
    destruct (first_failure h xs) as [[? ?]|]; [done|].
    by destruct (first_failure h ys) as [[? ?]|].
Qed.

(** The placeholders tried are a prefix of the list, all loadable but the
    last, whose error is the one reported. *)
Lemma first_failure_at h pre p post e :
  Forall (λ q, is_Ok (loaded h q)) pre → loaded h p = Raise e →
  first_failure h (pre ++ p :: post) = Some (pre ++ [p], e).
Proof.
  intros Hpre Hp. induction Hpre as [|q pre [v Hq] _ IH]; cbn [first_failure app].
  - by rewrite Hp.
  - by rewrite Hq, IH.
Qed.


Lemma stops_ret {A} (a : A) w : stops w [] (ret a w).
Proof. unfold stops. simpl. by eexists. Qed.

Lemma stops_load p w : stops w [p] (call_load_tensor p w).
Proof.
  unfold stops. cbn [first_failure].
  rewrite call_load_tensor_value, call_load_tensor_reads.
  destruct (loaded (heap w) p); simpl; [by eexists|].
  by rewrite app_nil_r.
Qed.

Lemma for_each_stops {A B} (g : A → M B) (ps : A → list Ref)
    (e : list _NotYetLoadedTensor → A → B) (items : list A) :
  Forall (λ a, ∀ w, collects w (ps a) (g a w) (e (heap w) a)
                    ∧ stops w (ps a) (g a w)) items →
  ∀ w, stops w (concat (ps <$> items)) (for_each g items w).
Proof.
  induction 1 as [|a items Ha _ IH]; intros w.
  - apply stops_ret.
  - cbn [for_each fmap list_fmap concat]. unfold bind at 1.
    destruct (Ha w) as [(Hh & Hf & Hc) Hs]. unfold stops in *.
    rewrite first_failure_app.
    destruct (g a w) as [[b|err] w1]; cbn [fst snd] in *.
    + destruct Hc as (Hok & -> & Hreads).
      rewrite (proj2 (first_failure_None _ _) Hok).
      specialize (IH w1). fold (for_each g) in *. rewrite Hh in IH.
      unfold bind.
      destruct (first_failure (heap w) (concat (ps <$> items)))
        as [[tried e']|]; simpl.
      * destruct IH as [Eo Er].
        destruct (for_each g items w1) as [[bs|err] w2]; cbn [fst snd] in *.
        { discriminate Eo. }
        split; [done|].
        by rewrite Er, Hreads, fmap_app, concat_app, <- app_assoc.
      * destruct IH as [bs Eo].
        destruct (for_each g items w1) as [[bs'|err] w2]; cbn [fst snd] in *;
          [by eexists|discriminate Eo].
    + destruct (first_failure (heap w) (ps a)) as [[tried e']|].
      * destruct Hs as [[= ->] Hr]. by split.
      * destruct Hs as [? Hs]. discriminate Hs.
Qed.

Lemma stops_bind_ret {A B} w ps (m : M A) (f : A → B) :
  stops w ps (m w) → stops w ps ((let* x := m in ret (f x)) w).
Proof.
  unfold stops, bind.
  destruct (first_failure _ _) as [[tried e]|];
    destruct (m w) as [[a|err] w1]; cbn [fst snd]; intros Hs.
  - destruct Hs as [Hs _]. discriminate Hs.
  - destruct Hs as [[= ->] Hr]. by split.
  - by eexists.
  - destruct Hs as [? Hs]. discriminate Hs.
Qed.

Lemma materialize_stops (c : Value) :
  rebuildable c = true →
  ∀ w, stops w (placeholders c) (_materialize_tensors c w).
Proof.
  unfold _materialize_tensors.
  induction c as [v Hv|items IH|items IH|items IH] using Value_nested_ind;
    intros Hreb w.
  - destruct v; try done; try apply stops_ret. apply stops_load.
  - cbn [apply_to_collection placeholders rebuildable] in *.
    apply stops_bind_ret.
    apply (for_each_stops _ placeholders
             (λ h, replace_placeholders (loaded_value h))).
    rewrite forallb_forall in Hreb. rewrite Forall_forall in IH.
    apply Forall_forall. intros a Ha w'.
    assert (Hra : rebuildable a = true) by (by apply Hreb, list_elem_of_In).
    split; [by apply materialize_collects|by apply IH].
  - cbn [apply_to_collection placeholders rebuildable] in *.
    apply stops_bind_ret.
    apply (for_each_stops _ placeholders
             (λ h, replace_placeholders (loaded_value h))).
    rewrite forallb_forall in Hreb. rewrite Forall_forall in IH.
    apply Forall_forall. intros a Ha w'.
    assert (Hra : rebuildable a = true) by (by apply Hreb, list_elem_of_In).
    split; [by apply materialize_collects|by apply IH].
  - cbn [apply_to_collection placeholders rebuildable] in *.
    apply stops_bind_ret.
    apply (for_each_stops _ (λ kv, placeholders kv.2)
             (λ h kv, (kv.1, replace_placeholders (loaded_value h) kv.2))).
    rewrite forallb_forall in Hreb. rewrite Forall_forall in IH.
    apply Forall_forall. intros [k v] Ha w'. cbn [fst snd] in *.
    assert (Hra : rebuildable v = true)
      by (by apply (Hreb (k, v)), list_elem_of_In).
    split.
    + apply (collects_bind_ret _ _ _ (λ x, (k, x))).
      by apply materialize_collects.
    + apply stops_bind_ret. by apply (IH (k, v)).
Qed.

(** A collection in which no placeholder is reached is returned as it is,
    in the same world. *)
Lemma for_each_id {A} (g : A → M A) (items : list A) :
  Forall (λ a, ∀ w, g a w = (Ok a, w)) items →
  ∀ w, for_each g items w = (Ok items, w).
Proof.
  induction 1 as [|a items Ha _ IH]; intros w; [done|].
  cbn [for_each]. unfold bind at 1. rewrite Ha.
  unfold bind. fold (for_each g). by rewrite IH.
Qed.

Lemma materialize_none (c : Value) :
  rebuildable c = true → placeholders c = [] →
  ∀ w, _materialize_tensors c w = (Ok c, w).
Proof.
  unfold _materialize_tensors.
  induction c as [v Hv|items IH|items IH|items IH] using Value_nested_ind;
    intros Hreb Hnil w.
  - by destruct v.
  - cbn [apply_to_collection placeholders rebuildable] in *. unfold bind.
    rewrite for_each_id; [done|].
    clear w. induction IH as [|x items Hx _ IH']; [done|].
    cbn [fmap list_fmap concat forallb] in *.
    apply app_eq_nil in Hnil as [Hx' Hrest].
    apply andb_prop in Hreb as [Hr Hreb]. constructor; auto.
  - cbn [apply_to_collection placeholders rebuildable] in *. unfold bind.
    rewrite for_each_id; [done|].
    clear w. induction IH as [|x items Hx _ IH']; [done|].
    cbn [fmap list_fmap concat forallb] in *.
    apply app_eq_nil in Hnil as [Hx' Hrest].
    apply andb_prop in Hreb as [Hr Hreb]. constructor; auto.
  - cbn [apply_to_collection placeholders rebuildable] in *. unfold bind.
    rewrite for_each_id; [done|].
    clear w. induction IH as [|[k x] items Hx _ IH']; [done|].
    cbn [fmap list_fmap concat forallb fst snd] in *.
    apply app_eq_nil in Hnil as [Hx' Hrest].
    apply andb_prop in Hreb as [Hr Hreb]. constructor; [|auto].
    intros w. unfold bind. by rewrite (Hx Hr Hx').
Qed.

(** What stands for a loadable placeholder is a tensor, so nothing is left
    to replace, and no [range] comes in. *)
Lemma placeholders_replaced h (c : Value) :
  forallb (loadable h) (placeholders c) = true →
  placeholders (replace_placeholders (loaded_value h) c) = [].
Proof.
  induction c as [v Hv|items IH|items IH|items IH] using Value_nested_ind;
    intros Hall.
  - destruct v; try done. cbn in *. unfold loaded_value, loadable in *.
    destruct (loaded h p) as [v|e] eqn:E; [|done].
    by destruct (loaded_tensor _ _ _ E) as [t ->].
  - cbn [replace_placeholders placeholders] in *.
    induction IH as [|x items Hx _ IH']; [done|].
    cbn [fmap list_fmap concat] in *. rewrite forallb_app in Hall.
    apply andb_prop in Hall as [Hx' Hrest]. by rewrite (Hx Hx'), (IH' Hrest).
  - cbn [replace_placeholders placeholders] in *.
    induction IH as [|x items Hx _ IH']; [done|].
    cbn [fmap list_fmap concat] in *. rewrite forallb_app in Hall.
    apply andb_prop in Hall as [Hx' Hrest]. by rewrite (Hx Hx'), (IH' Hrest).
  - cbn [replace_placeholders placeholders] in *.
    induction IH as [|[k x] items Hx _ IH']; [done|].
    cbn [fmap list_fmap concat fst snd] in *. rewrite forallb_app in Hall.
    apply andb_prop in Hall as [Hx' Hrest]. by rewrite (Hx Hx'), (IH' Hrest).
Qed.

Lemma loaded_value_rebuildable h p : rebuildable (loaded_value h p) = true.
Proof.
  unfold loaded_value. destruct (loaded h p) as [v|e] eqn:E; [|done].
  by destruct (loaded_tensor _ _ _ E) as [t ->].
Qed.

Lemma rebuildable_replace h (c : Value) :
  rebuildable c = true →
  rebuildable (replace_placeholders (loaded_value h) c) = true.
Proof.
  induction c as [v Hv|items IH|items IH|items IH] using Value_nested_ind;
    intros Hreb.
  - destruct v; try done. apply loaded_value_rebuildable.
  - cbn [replace_placeholders rebuildable] in *.
    induction IH as [|x items Hx _ IH']; [done|].
    cbn [fmap list_fmap forallb] in *.
    apply andb_prop in Hreb as [Hr Hreb]. by rewrite (Hx Hr), (IH' Hreb).
  - cbn [replace_placeholders rebuildable] in *.
    induction IH as [|x items Hx _ IH']; [done|].
    cbn [fmap list_fmap forallb] in *.
    apply andb_prop in Hreb as [Hr Hreb]. by rewrite (Hx Hr), (IH' Hreb).
  - cbn [replace_placeholders rebuildable] in *.
    induction IH as [|[k x] items Hx _ IH']; [done|].
    cbn [fmap list_fmap forallb fst snd] in *.
    apply andb_prop in Hreb as [Hr Hreb]. by rewrite (Hx Hr), (IH' Hreb).
Qed.


(** *** Further properties of the module *)

(** X1.  [rebuild_tensor_v2] reads nothing and leaves the filters and every
    placeholder of the heap as they were.  It first has the library build
    the meta tensor: when the library refuses the arguments, the hook
    raises that exception and adds nothing.  Otherwise, on a storage that
    carries [archiveinfo], it adds one placeholder at the end of the heap
    and returns it: its meta tensor is the one the library returned, its
    storage info is the attached persistent id, its rebuild arguments are
    the six arguments after the storage, and no loader is assigned; on a
    storage without [archiveinfo] it does not return and adds nothing. *)
Theorem rebuild_tensor_v2_allocates (storage : TypedStorage) (off : Z)
    (size stride : list Z) (rg : bool) (hooks : PyDict) (md : option PyDict)
    (ai : _LazyLoadingUnpickler) (w : World) :
  let out := rebuild_tensor_v2 storage off size stride rg hooks md ai w in
  reads out.2 = reads w
  ∧ filters out.2 = filters w
  ∧ (∀ q o, heap w !! q = Some o → heap out.2 !! q = Some o)
  ∧ match (torch_rebuild_tensor_v2 storage off size stride rg hooks md w).1 with
    | Raise e => out.1 = Raise e ∧ heap out.2 = heap w
    | Ok metatensor =>
        match ts_archiveinfo storage with
        | Some pid =>
            out.1 = Ok (VNotYetLoaded (length (heap w)))
            ∧ heap out.2 =
              heap w ++
              [mkNotYetLoaded metatensor ai pid
                 (mkRebuildArgs off size stride rg hooks md) None]
        | None => ¬ is_Ok out.1 ∧ heap out.2 = heap w
        end
    end.
Proof.
  intros out. subst out.
  pose proof (rebuild_tensor_v2_run storage
                (mkRebuildArgs off size stride rg hooks md) ai w) as Hrun.
  pose proof (torch_rebuild_tensor_v2_run storage
                (mkRebuildArgs off size stride rg hooks md) w) as Hlib.
  cbn [ra_storage_offset ra_size ra_stride ra_requires_grad ra_backward_hooks
       ra_metadata] in Hrun, Hlib. rewrite Hrun, Hlib. cbv zeta. cbn [fst].
  destruct (rebuild_tensor_v2_result _ _) as [mt|e].
  - destruct (ts_archiveinfo storage) as [pid|];
      cbn [fst snd set_heap advance reads filters heap]; rewrite ?app_nil_r.
    + repeat split. intros q o Hq. by apply lookup_app_l_Some.
    + repeat split; try done. by intros [? ?].
  - cbn [fst snd advance reads filters heap]. rewrite app_nil_r.
    by repeat split.
Qed.

Lemma heap_ok_snoc h o :
  heap_ok h → loader_self (loader_of (length h) o) = length h →
  meta_consistent o → heap_ok (h ++ [o]).
Proof.
  intros [Hroot Hmeta] Hself Ho. split.
  - intros p o' E. apply lookup_app_Some in E as [E|[Hlen E]].
    + by apply Hroot.
    + apply list_lookup_singleton_Some in E as [Hp <-].
      by replace p with (length h) by lia.
  - apply Forall_app. split; [done|]. by constructor.
Qed.

Lemma unpickle_lazy_heap_ok ai c w :
  heap_ok (heap w) → heap_ok (heap (unpickle (lazy_unpickler ai) c w).2).
Proof.
  intros Hok. rewrite unpickle_lazy_run. cbv zeta.
  destruct (refuses (meta_request c)); [done|]. cbn [snd set_heap heap].
  apply heap_ok_snoc; [done| |done].
  by rewrite call_placeholder_loader, call_closures_self.
Qed.

(** X2.  The heaps that the hooks build keep this invariant: the loader of
    every placeholder ends in the method of that same placeholder, and its
    meta tensor has the size and stride of its rebuild arguments.  The empty
    heap has it; [rebuild_tensor_v2], [rebuild_parameter],
    [rebuild_from_type_v2] (around a build function that keeps it) and the
    lazy unpickling of a call keep it.  In such a heap, materialising a
    placeholder requests the record of that placeholder and no other. *)
Theorem hooks_keep_heap_ok (w : World) :
  heap_ok (heap w) →
  (∀ storage off size stride rg hooks md ai,
     heap_ok (heap (rebuild_tensor_v2 storage off size stride rg hooks md ai
                      w).2))
  ∧ (∀ data rg hooks, heap_ok (heap (rebuild_parameter data rg hooks w).2))
  ∧ (∀ func new_type args state,
       (∀ w', heap_ok (heap w') → heap_ok (heap (func args w').2)) →
       heap_ok (heap (rebuild_from_type_v2 func new_type args state w).2))
  ∧ (∀ ai c, heap_ok (heap (unpickle (lazy_unpickler ai) c w).2))
  ∧ (∀ p o, heap w !! p = Some o →
            reads (call_load_tensor p w).2 = reads w ++ [load_request o]).
Proof.
  intros Hok. split; [|split; [|split; [|split]]].
  - intros. by apply rebuild_tensor_v2_heap_ok.
  - intros. by apply rebuild_parameter_heap_ok.
  - intros. by apply rebuild_from_type_v2_heap_ok.
  - intros. by apply unpickle_lazy_heap_ok.
  - intros p o E. destruct (heap_ok_lookup _ _ _ Hok E) as [Hself _].
    rewrite call_load_tensor_reads. unfold requests.
    rewrite (target_lookup _ _ o o); [done..|]. by rewrite Hself.
Qed.

(** X3.  [rebuild_parameter] on a placeholder changes its loader and
    nothing else: every attribute of the allow-list still reads what the
    meta tensor has, after the warning that the library emits for that
    name, if any.  So [requires_grad] on the placeholder keeps reporting
    the flag of the pickled tensor, while the parameter that materialising
    gives, when it returns, carries the flag passed to the hook. *)
Theorem parameter_hook_keeps_metadata (p : Ref) (o : _NotYetLoadedTensor)
    (rg : bool) (hooks : PyDict) (w : World) :
  heap w !! p = Some o →
  let w1 := (rebuild_parameter (VNotYetLoaded p) rg hooks w).2 in
  (∀ name, name ∈ allow_list →
           __getattr__ p name w1
           = (Tensor_getattr (metatensor o) name,
              advance w1 [] (audible (filters w1) (attribute_warnings name))))
  ∧ __getattr__ p "requires_grad" w1
    = (Ok (VBool (t_requires_grad (metatensor o))), w1)
  ∧ (∀ q o', q ≠ p → heap w !! q = Some o' → heap w1 !! q = Some o')
  ∧ (∀ v, (call_load_tensor p w1).1 = Ok v →
          ∃ t, v = VTensor t ∧ t_requires_grad t = rg ∧ t_is_param t = true).
Proof.
  intros E w1. subst w1. rewrite (rebuild_parameter_placeholder _ _ _ _ _ E).
  cbn [snd].
  set (closure := ParameterClosure (loader_of p o) rg hooks).
  set (w1 := set_heap _ w).
  assert (E1 : heap w1 !! p = Some (with_loader o closure))
    by (by apply lookup_assigned).
  assert (Hattr : ∀ name, name ∈ allow_list →
            __getattr__ p name w1
            = (Tensor_getattr (metatensor o) name,
               advance w1 [] (audible (filters w1) (attribute_warnings name)))).
  { intros name Hin. by rewrite (getattr_allowed p name _ w1 Hin E1). }
  split; [done|]. split; [|split].
  - rewrite Hattr by (by apply (bool_decide_unpack _)).
    by rewrite advance_nil.
  - intros q o' Hne Hq. subst w1. cbn [set_heap heap].
    by rewrite list_lookup_insert_ne.
  - intros v. rewrite call_load_tensor_value. unfold loaded, target.
    rewrite E1. cbn [mbind option_bind].
    change (loader_of p (with_loader o closure)) with closure.
    destruct (heap w1 !! loader_self closure) as [o'|]; cbn [mbind option_bind];
      [|done].
    intros Hv.
    destruct (load_value_Ok _ _ _ Hv) as (raw & t0 & t & _ & _ & Ht & ->).
    exists t. split; [done|]. subst closure. cbn [wrapped] in Ht.
    destruct (wrapped (loader_of p o) t0) as [t1|e]; [|done].
    unfold rebuild_parameter_result, verdict in Ht.
    destruct (refuses _); [done|]. by injection Ht as <-.
Qed.

(** X4.  Reading [contiguous] on a placeholder materialises it: the record
    of the placeholder is requested once and the heap is left as it was.
    When the load raises, from the reader or from the library, so does the
    read; when it returns a tensor, the result is the bound method
    [contiguous] of that tensor. *)
Theorem getattr_contiguous_materializes (p : Ref) (o : _NotYetLoadedTensor)
    (w : World) :
  heap w !! p = Some o →
  loader_self (loader_of p o) = p →
  let out := __getattr__ p "contiguous" w in
  let load := call_load_tensor p w in
  reads out.2 = reads w ++ [load_request o]
  ∧ heap out.2 = heap w
  ∧ out.2 = load.2
  ∧ out.1 = match load.1 with
            | Ok (VTensor t) => Ok (VBoundMethod t "contiguous")
            | Ok v => Raise (no_attribute v "contiguous")
            | Raise e => Raise e
            end
  ∧ (∀ v, load.1 = Ok v → ∃ t, v = VTensor t).
Proof.
  intros E Hself out load. subst out load.
  assert (Eg : __getattr__ p "contiguous" w
               = (let* t := call_load_tensor p in getattr t "contiguous") w)
    by reflexivity.
  rewrite Eg.
  assert (Hreads : reads (call_load_tensor p w).2 = reads w ++ [load_request o]).
  { rewrite call_load_tensor_reads. unfold requests.
    rewrite (target_lookup _ _ o o); [done..|]. by rewrite Hself. }
  pose proof (call_load_tensor_heap p w) as Hheap.
  assert (Htensor : ∀ v, (call_load_tensor p w).1 = Ok v → ∃ t, v = VTensor t).
  { intros v. rewrite call_load_tensor_value. apply loaded_tensor. }
  destruct (call_load_tensor p w) as [[v|e] w1] eqn:El; cbn [fst snd] in *.
  - rewrite (bind_Ok _ _ _ _ _ El).
    destruct (Htensor v eq_refl) as [t ->].
    unfold getattr, bind. rewrite warn_all_run.
    change (attribute_warnings "contiguous") with (@nil PyWarning).
    change (audible (filters w1) []) with (@nil PyWarning).
    rewrite advance_nil. cbn [fst snd]. by repeat split.
  - rewrite (bind_Raise _ _ _ _ _ El). by repeat split.
Qed.

Lemma load_args_none (args : list Value) w :
  placeholder_args args = [] →
  for_each (λ arg, match arg with
                   | VNotYetLoaded p => call_load_tensor p
                   | _ => ret arg
                   end) args w = (Ok args, w).
Proof.
  intros Hnil. apply for_each_id. unfold placeholder_args in Hnil.
  induction args as [|a args IH]; [done|].
  cbn [fmap list_fmap concat] in Hnil.
  apply app_eq_nil in Hnil as [Ha Hrest].
  constructor; [|auto]. by destruct a.
Qed.

(** X5.  When no positional argument is itself a placeholder,
    [__torch_function__] calls the operation with the arguments exactly as
    given, in the same world: nothing is read, whatever placeholders sit
    inside a list or tuple argument or among the keyword arguments. *)
Theorem torch_function_passes_nested
    (func : list Value → list (string * Value) → M Value)
    (types args : list Value) (kwargs : option (list (string * Value)))
    (w : World) :
  placeholder_args args = [] →
  __torch_function__ func types args kwargs w = func args (default [] kwargs) w.
Proof.
  intros Hnil. unfold __torch_function__.
  by rewrite (bind_Ok _ _ _ _ _ (load_args_none args w Hnil)).
Qed.

(** X6.  In what [_materialize_tensors] returns, the traversal reaches no
    placeholder any more, while the placeholders inside sets and objects
    are all still there; materialising the result once more returns it
    unchanged without touching the world: no record is requested again. *)
Theorem materialize_tensors_idempotent (collection c' : Value) (w w' : World) :
  _materialize_tensors collection w = (Ok c', w') →
  placeholders c' = []
  ∧ unreached c' = unreached collection
  ∧ _materialize_tensors c' w' = (Ok c', w').
Proof.
  intros E.
  destruct (rebuildable collection) eqn:Hreb; cycle 1.
  { destruct (materialize_range collection Hreb w). rewrite E. by eexists. }
  destruct (materialize_collects collection Hreb w) as (_ & _ & Hr).
  rewrite E in Hr. cbn [fst snd] in Hr. destruct Hr as (Hok & -> & _).
  assert (Hnil := placeholders_replaced _ _ Hok).
  split; [done|]. split; [apply unreached_replace|].
  apply materialize_none; [|done]. by apply rebuildable_replace.
Qed.

(** X7.  On a collection in which the traversal meets no [range]: when a
    placeholder it reaches cannot be loaded, [_materialize_tensors] raises
    the error of the first such placeholder in traversal order and returns
    no collection; the archive has then been asked for the placeholders
    before it and for that one, and the heap is as it was. *)
Theorem materialize_tensors_first_failure (collection : Value) (w : World)
    (pre : list Ref) (p : Ref) (post : list Ref) (e : Exception) :
  rebuildable collection = true →
  placeholders collection = pre ++ p :: post →
  Forall (λ q, is_Ok (call_load_tensor q w).1) pre →
  (call_load_tensor p w).1 = Raise e →
  let out := _materialize_tensors collection w in
  out.1 = Raise e
  ∧ reads out.2 = reads w ++ concat (requests (heap w) <$> pre ++ [p])
  ∧ heap out.2 = heap w.
Proof.
  intros Hreb Hps Hpre Hp out. subst out.
  assert (Hf : first_failure (heap w) (placeholders collection)
               = Some (pre ++ [p], e)).
  { rewrite Hps. apply first_failure_at.
    - eapply Forall_impl; [exact Hpre|]. intros q Hq. simpl in Hq.
      by rewrite <- call_load_tensor_value.
    - by rewrite <- call_load_tensor_value. }
  pose proof (materialize_stops collection Hreb w) as Hs. unfold stops in Hs.
  rewrite Hf in Hs. destruct Hs as [Ho Hr].
  destruct (materialize_frame collection w) as (Hh & _).
  by repeat split.
Qed.

(** X8.  Unpickling a tensor-building call with the lazy unpickler reads
    nothing from the archive and leaves the filters as they were.  The one
    thing that can fail is the meta tensor: when the library refuses the
    rebuild arguments for it, that exception is raised and no placeholder
    is made.  Otherwise the call returns a placeholder, added at the end of
    the heap: bound to this unpickler and to the persistent id of the call,
    its meta tensor on the meta device without bytes, and its loader made
    of the closures of the call in the order of nesting. *)
Theorem lazy_unpickle_reads_nothing (ai : _LazyLoadingUnpickler) (c : Call)
    (w : World) :
  let out := unpickle (lazy_unpickler ai) c w in
  let p := length (heap w) in
  reads out.2 = reads w
  ∧ filters out.2 = filters w
  ∧ match refuses (meta_request c) with
    | Some e => out.1 = Raise e ∧ heap out.2 = heap w
    | None =>
        out.1 = Ok (VNotYetLoaded p)
        ∧ ∃ o, heap out.2 = heap w ++ [o]
               ∧ archiveinfo o = ai
               ∧ storageinfo o = call_pid c
               ∧ rebuild_args o = call_args c
               ∧ t_device (metatensor o) = meta
               ∧ ts_untyped (t_storage (metatensor o)) = []
               ∧ t_dtype (metatensor o)
                 = storage_class_dtype (pid_cls (call_pid c))
               ∧ loader_of p o = call_closures c p
    end.
Proof.
  intros out p. subst out p. rewrite unpickle_lazy_run. cbv zeta.
  destruct (refuses (meta_request c));
    cbn [fst snd set_heap advance reads filters heap]; rewrite app_nil_r.
  - by repeat split.
  - repeat split. eexists. split; [done|].
    repeat split. apply call_placeholder_loader.
Qed.

(** The closures that the hooks of a call leave are the library functions
    of the call, in the order of the pickle. *)
Lemma call_loader_replay c p w :
  call_loader (call_closures c p) w = replay c (_load_tensor p) w.
Proof.
  revert w. induction c as [pid ra|d IH rg h|pid ra nt st|d IH rg h nt st];
    intros w; cbn [call_closures call_loader replay]; try done.
  - unfold bind. by rewrite IH.
  - unfold bind. by rewrite IH.
Qed.

(** X9.  Materialising the placeholder that the lazy unpickler made of a
    tensor-building call runs the library functions of that call, in the
    order in which the pickle applies them, on the tensor that
    [_load_tensor] reads from the record: the hooks defer the calls, they
    neither drop nor reorder them.  The archive gets the one request for
    the record of the call. *)
Theorem lazy_unpickle_replays_calls (ai : _LazyLoadingUnpickler) (c : Call)
    (w : World) (p : Ref) :
  let out := unpickle (lazy_unpickler ai) c w in
  out.1 = Ok (VNotYetLoaded p) →
  call_load_tensor p out.2 = replay c (_load_tensor p) out.2
  ∧ reads (call_load_tensor p out.2).2 = reads w ++ [call_request c]
  ∧ heap (call_load_tensor p out.2).2 = heap out.2.
Proof.
  intros out. subst out. rewrite unpickle_lazy_run. cbv zeta.
  destruct (refuses (meta_request c)); [done|]. cbn [fst snd].
  intros [= <-]. set (p := length (heap w)).
  set (w1 := set_heap _ _).
  assert (E : heap w1 !! p = Some (call_placeholder ai c p))
    by (by apply list_lookup_middle).
  split; [|split].
  - unfold call_load_tensor.
    rewrite (bind_Ok _ _ _ _ _ (get_load_tensor_run _ _ _ E)).
    rewrite call_placeholder_loader. apply call_loader_replay.
  - rewrite call_load_tensor_reads. unfold requests.
    rewrite (target_lookup _ _ _ (call_placeholder ai c p) E);
      [|by rewrite call_placeholder_loader, call_closures_self].
    subst w1. cbn [set_heap advance reads]. by rewrite app_nil_r.
  - apply call_load_tensor_heap.
Qed.


(** *** State dicts *)

Lemma for_each_cons {A B} (g : A → M B) a items w :
  for_each g (a :: items) w =
  (let* b := g a in let* bs := for_each g items in ret (b :: bs)) w.
Proof. reflexivity. Qed.

Lemma first_refused_lt items k e :
  first_refused items = Some (k, e) → (k < length items)%nat.
Proof.
  revert k. induction items as [|kv items IH]; intros k; cbn [first_refused];
    [done|].
  destruct (refuses (meta_request kv.2)).
  - intros [= <- _]. simpl. lia.
  - destruct (first_refused items) as [[k' e']|]; [|done].
    intros [= <- ->]. specialize (IH k' eq_refl). simpl. lia.
Qed.

(** The entries that are unpickled before the library refuses one. *)
Lemma lazy_items_run ai items w :
  ∃ w1,
    for_each (fun kv : string * Call =>
                let* v := unpickle (lazy_unpickler ai) kv.2 in ret (kv.1, v))
      items w
    = (match first_refused items with
       | Some r => Raise r.2
       | None => Ok (lazy_entries items (length (heap w)))
       end, w1)
    ∧ heap w1 = heap w ++ lazy_heap ai
                            (match first_refused items with
                             | Some r => take r.1 items
                             | None => items
                             end) (length (heap w))
    ∧ reads w1 = reads w
    ∧ filters w1 = filters w.
Proof.
  revert w. induction items as [|[k c] items IH]; intros w.
  - exists w. cbn. by rewrite app_nil_r.
  - rewrite for_each_cons. cbn [fst snd first_refused].
    pose proof (unpickle_lazy_run ai c w) as Hrun. cbv zeta in Hrun.
    destruct (refuses (meta_request c)) as [e|].
    + set (w' := advance _ _ _) in Hrun.
      assert (Em : (let* v := unpickle (lazy_unpickler ai) c in ret (k, v)) w
                   = (Raise e, w'))
        by (by rewrite (bind_Raise _ _ _ _ _ Hrun)).
      exists w'. rewrite (bind_Raise _ _ _ _ _ Em).
      subst w'. cbn [fst snd take lazy_heap advance heap reads filters].
      rewrite !app_nil_r. by repeat split.
    + set (w' := set_heap _ _) in Hrun.
      assert (Em : (let* v := unpickle (lazy_unpickler ai) c in ret (k, v)) w
                   = (Ok (k, VNotYetLoaded (length (heap w))), w'))
        by (by rewrite (bind_Ok _ _ _ _ _ Hrun)).
      rewrite (bind_Ok _ _ _ _ _ Em).
      destruct (IH w') as (w1 & E & Hh & Hr & Hf).
      assert (Hlen : length (heap w') = S (length (heap w))).
      { subst w'. cbn [set_heap heap]. rewrite length_app. simpl. lia. }
      rewrite Hlen in *. exists w1.
      destruct (first_refused items) as [[k' e']|]; cbn [fmap option_fmap fst snd] in *.
      * rewrite (bind_Raise _ _ _ _ _ E). split; [done|].
        split; [|split].
        -- rewrite Hh. subst w'. cbn [set_heap heap take lazy_heap fst snd].
           by rewrite <- app_assoc.
        -- rewrite Hr. subst w'. cbn [set_heap advance reads].
           by rewrite app_nil_r.
        -- by rewrite Hf.
      * rewrite (bind_Ok _ _ _ _ _ E). unfold ret. split; [done|].
        split; [|split].
        -- rewrite Hh. subst w'. cbn [set_heap heap lazy_heap fst snd].
           by rewrite <- app_assoc.
        -- rewrite Hr. subst w'. cbn [set_heap advance reads].
           by rewrite app_nil_r.
        -- by rewrite Hf.
Qed.

Lemma lazy_heap_lookup ai items n i kv :
  items !! i = Some kv →
  lazy_heap ai items n !! i = Some (call_placeholder ai kv.2 (n + i)%nat).
Proof.
  revert n i. induction items as [|kv' items IH]; intros n i E; [done|].
  destruct i as [|i]; simpl in *.
  - injection E as ->. by rewrite Nat.add_0_r.
  - replace (n + S i)%nat with (S n + i)%nat by lia. by apply IH.
Qed.

Lemma lazy_entries_lookup items n i kv :
  items !! i = Some kv →
  lazy_entries items n !! i = Some (kv.1, VNotYetLoaded (n + i)%nat).
Proof.
  revert n i. induction items as [|kv' items IH]; intros n i E; [done|].
  destruct i as [|i]; simpl in *.
  - injection E as ->. by rewrite Nat.add_0_r.
  - replace (n + S i)%nat with (S n + i)%nat by lia. by apply IH.
Qed.

Lemma lazy_entries_length items n : length (lazy_entries items n) = length items.
Proof. revert n. induction items; intros n; simpl; auto. Qed.

Lemma lazy_heap_length ai items n : length (lazy_heap ai items n) = length items.
Proof. revert n. induction items; intros n; simpl; auto. Qed.

Lemma lazy_state_dict_run ai items w :
  ∃ w1,
    unpickle_state_dict (lazy_unpickler ai) items w
    = (match first_refused items with
       | Some r => Raise r.2
       | None => Ok (VDict (lazy_entries items (length (heap w))))
       end, w1)
    ∧ heap w1 = heap w ++ lazy_heap ai
                            (match first_refused items with
                             | Some r => take r.1 items
                             | None => items
                             end) (length (heap w))
    ∧ reads w1 = reads w
    ∧ filters w1 = filters w.
Proof.
  destruct (lazy_items_run ai items w) as (w1 & E & Hh & Hr & Hf).
  exists w1. unfold unpickle_state_dict.
  destruct (first_refused items) as [[k e]|].
  - by rewrite (bind_Raise _ _ _ _ _ E).
  - by rewrite (bind_Ok _ _ _ _ _ E).
Qed.

(** X10.  Unpickling a state dict with the lazy unpickler reads nothing
    from the archive and leaves the filters and the placeholders of the
    heap as they were.  When the library accepts the rebuild arguments of
    every entry for its meta tensor, the call returns: one placeholder per
    entry is added, in the order of the entries, and the result is the dict
    from each name to its placeholder, whose meta tensor has the size,
    stride and dtype of the pickled tensor.  Otherwise it raises the
    exception of the first entry that the library refuses, and the heap has
    got the placeholders of the entries before that one. *)
Theorem lazy_state_dict_reads_nothing (ai : _LazyLoadingUnpickler)
    (items : list (string * Call)) (w : World) :
  let out := unpickle_state_dict (lazy_unpickler ai) items w in
  let n := length (heap w) in
  reads out.2 = reads w
  ∧ filters out.2 = filters w
  ∧ (∀ q o, heap w !! q = Some o → heap out.2 !! q = Some o)
  ∧ match first_refused items with
    | Some (k, e) =>
        out.1 = Raise e ∧ length (heap out.2) = (n + k)%nat
    | None =>
        length (heap out.2) = (n + length items)%nat
        ∧ ∃ entries,
            out.1 = Ok (VDict entries)
            ∧ length entries = length items
            ∧ ∀ i kv, items !! i = Some kv →
                entries !! i = Some (kv.1, VNotYetLoaded (n + i)%nat)
                ∧ ∃ o, heap out.2 !! (n + i)%nat = Some o
                       ∧ archiveinfo o = ai
                       ∧ storageinfo o = call_pid kv.2
                       ∧ t_device (metatensor o) = meta
                       ∧ t_size (metatensor o) = ra_size (call_args kv.2)
                       ∧ t_stride (metatensor o) = ra_stride (call_args kv.2)
                       ∧ t_dtype (metatensor o)
                         = storage_class_dtype (pid_cls (call_pid kv.2))
                       ∧ loader_of (n + i)%nat o
                         = call_closures kv.2 (n + i)%nat
    end.
Proof.
  intros out n. subst out n.
  destruct (lazy_state_dict_run ai items w) as (w1 & -> & Hh & Hr & Hf).
  cbn [fst snd]. split; [done|]. split; [done|]. split.
  { intros q o Hq. rewrite Hh. by apply lookup_app_l_Some. }
  destruct (first_refused items) as [[k e]|] eqn:Ef; cbn [fst snd] in *.
  - split; [done|]. rewrite Hh, length_app, lazy_heap_length, length_take.
    apply first_refused_lt in Ef. lia.
  - split; [by rewrite Hh, length_app, lazy_heap_length|].
    eexists. split; [done|]. split; [apply lazy_entries_length|].
    intros i kv Hi. split; [by apply lazy_entries_lookup|].
    exists (call_placeholder ai kv.2 (length (heap w) + i)%nat). split.
    + rewrite Hh, lookup_app_r by lia.
      replace (length (heap w) + i - length (heap w))%nat with i by lia.
      by apply lazy_heap_lookup.
    + repeat split. apply call_placeholder_loader.
Qed.






End Unpickled.

(** ** Concrete runs *)

#[local] Existing Instance quiet.

Example ex_world_placeholder : heap ex_world !! 0%nat = Some ex_placeholder.
Proof. reflexivity. Qed.

(** Unpickling the storage and the tensor reads nothing. *)
Example ex_build_run :
  ex_build ex_pid ex_tail empty_world = (Ok (VNotYetLoaded 0%nat), ex_world)
  ∧ reads ex_world = [].
Proof. split; reflexivity. Qed.

(** The type-changing hook around the call that builds the placeholder of
    [ex_world], and around a build function that returns a real tensor. *)
Lemma rebuild_from_type_v2_composes_witness :
  ex_build ex_pid ex_tail empty_world
  = (Ok (VNotYetLoaded 0%nat), ex_world)
  ∧ heap ex_world !! 0%nat = Some ex_placeholder
  ∧ (rebuild_from_type_v2 (ex_build ex_pid) (SubclassT "My") ex_tail
       ex_state empty_world).1 = Ok (VNotYetLoaded 0%nat)
  ∧ (rebuild_from_type_v2 (λ _, ret (VTensor ex_tensor)) (SubclassT "My") []
       ex_state empty_world).1
    = Ok (VTensor (_set_obj_state (as_subclass ex_tensor (SubclassT "My"))
                     ex_state)).
Proof.
  assert (E0 : ex_build ex_pid ex_tail empty_world
               = (Ok (VNotYetLoaded 0%nat), ex_world)) by reflexivity.
  assert (E1 : heap ex_world !! 0%nat = Some ex_placeholder) by reflexivity.
  split; [exact E0|]. split; [exact E1|]. split.
  - destruct (rebuild_from_type_v2_composes (ex_build ex_pid)
                (SubclassT "My") ex_tail ex_state empty_world ex_world
                (VNotYetLoaded 0%nat) E0) as [Hlazy _].
    destruct (Hlazy 0%nat ex_placeholder eq_refl E1) as [E _].
    rewrite E. reflexivity.
  - destruct (rebuild_from_type_v2_composes (λ _, ret (VTensor ex_tensor))
                (SubclassT "My") [] ex_state empty_world empty_world
                (VTensor ex_tensor) eq_refl) as [_ Hnow].
    destruct Hnow as [E _]; [done|]. rewrite E. reflexivity.
Defined.

(** C1 as stated fails: the placeholder that [rebuild_from_type_v2] returns
    is not a new one.  It is the object that the inner build function
    returned, already in the heap when the inner call came back; no object
    is added, and whoever holds that object sees its loader changed. *)
Lemma rebuild_from_type_v2_returns_inner :
  let inner := ex_build ex_pid ex_tail empty_world in
  let outer := rebuild_from_type_v2 (ex_build ex_pid) (SubclassT "My")
                 ex_tail ex_state empty_world in
  inner.1 = Ok (VNotYetLoaded 0%nat)
  ∧ outer.1 = Ok (VNotYetLoaded 0%nat)
  ∧ length (heap outer.2) = length (heap inner.2)
  ∧ (call_load_tensor 0%nat inner.2).1 = Ok (VTensor ex_tensor)
  ∧ (call_load_tensor 0%nat outer.2).1
    = Ok (VTensor (_set_obj_state (as_subclass ex_tensor (SubclassT "My"))
                     ex_state))
  ∧ ¬ ∃ q, outer.1 = Ok (VNotYetLoaded q) ∧ heap inner.2 !! q = None.
Proof.
  do 5 (split; [reflexivity|]).
  intros (q & E & N). injection E as <-. discriminate N.
Qed.



Lemma load_tensor_single_read_witness :
  heap ex_world !! 0%nat = Some ex_placeholder
  ∧ reads (_load_tensor 0%nat ex_world).2 = [mkRead "data/0" 8]
  ∧ (_load_tensor 0%nat ex_world).1 = Ok (VTensor ex_tensor).
Proof.
  assert (E1 : heap ex_world !! 0%nat = Some ex_placeholder) by reflexivity.
  destruct (load_tensor_single_read 0%nat ex_placeholder ex_world E1)
    as (Hreads & _ & Hvalue & _).
  split; [exact E1|]. split.
  - rewrite Hreads. reflexivity.
  - rewrite Hvalue. reflexivity.
Defined.

(** Rebuild arguments that do not fit the record: the record is read, and
    then the library refuses to build the view. *)
Example load_tensor_refused :
  let w := (ex_build ex_pid (pack_rebuild_args ex_wide_args) empty_world).2 in
  let out := _load_tensor 0%nat w in
  (∃ o, heap w !! 0%nat = Some o ∧ rebuild_args o = ex_wide_args)
  ∧ reads out.2 = [mkRead "data/0" 8]
  ∧ ¬ is_Ok out.1.
Proof.
  split; [eexists; split; reflexivity|]. split; [reflexivity|].
  intros [v Hv]. discriminate Hv.
Qed.

Lemma metadata_before_materialization_witness :
  heap ex_world !! 0%nat = Some ex_placeholder
  ∧ loader_self (loader_of 0%nat ex_placeholder) = 0%nat
  ∧ meta_consistent ex_placeholder
  ∧ __getattr__ 0%nat "shape" ex_world = (Ok (VTuple [VInt 2]), ex_world)
  ∧ __getattr__ 0%nat "dtype" ex_world = (Ok (VDtype float32), ex_world).
Proof.
  assert (E1 : heap ex_world !! 0%nat = Some ex_placeholder) by reflexivity.
  assert (E2 : loader_self (loader_of 0%nat ex_placeholder) = 0%nat)
    by reflexivity.
  assert (E3 : meta_consistent ex_placeholder) by (split; reflexivity).
  destruct (metadata_before_materialization 0%nat ex_placeholder ex_world
              E1 E2 E3) as (Hshape & Hdtype & _).
  split; [exact E1|]. split; [exact E2|]. split; [exact E3|].
  split; [exact Hshape|exact Hdtype].
Defined.

(** C4 as stated fails: reading [stride] on a placeholder does not succeed. *)
Lemma getattr_stride_fails :
  heap ex_world !! 0%nat = Some ex_placeholder
  ∧ ¬ ∃ v w', __getattr__ 0%nat "stride" ex_world = (Ok v, w').
Proof.
  split; [reflexivity|]. intros (v & w' & E). discriminate E.
Qed.



Lemma getattr_guard_witness :
  heap ex_world !! 0%nat = Some ex_placeholder
  ∧ (__getattr__ 0%nat "requires_grad" ex_world).1 = Ok (VBool false)
  ∧ (__getattr__ 0%nat "requires_grad" ex_world).2 = ex_world
  ∧ (__getattr__ 0%nat "volatile" ex_world).1 = Ok (VBool false)
  ∧ shown (__getattr__ 0%nat "volatile" ex_world).2
    = [mkWarning UserWarning
         "volatile was removed (Variable.volatile is always False)"]
  ∧ __getattr__ 0%nat "numpy" ex_world
    = (Raise (AttributeError
                "<class 'lightning.fabric.utilities.load._NotYetLoadedTensor'> does not have numpy"),
       ex_world).
Proof.
  assert (E : heap ex_world !! 0%nat = Some ex_placeholder) by reflexivity.
  destruct (getattr_guard 0%nat "requires_grad" ex_world) as [Hin _].
  destruct (getattr_guard 0%nat "volatile" ex_world) as [Hvol _].
  destruct (getattr_guard 0%nat "numpy" ex_world) as [_ Hout].
  destruct (Hin ltac:(by apply (bool_decide_unpack _)) ex_placeholder E)
    as (Hv & _ & _ & _ & Hsame & _).
  destruct (Hvol ltac:(by apply (bool_decide_unpack _)) ex_placeholder E)
    as (Hv' & _ & _ & _ & _ & Hshown).
  split; [exact E|]. split; [rewrite Hv; reflexivity|].
  split; [apply Hsame; discriminate|]. split; [rewrite Hv'; reflexivity|].
  split; [rewrite (Hshown eq_refl); reflexivity|].
  apply Hout; [by apply (bool_decide_unpack _)|discriminate].
Defined.

(** C6 as stated fails: the strides are not on the allow-list.  The meta
    tensor has the attribute, but the read through the placeholder is not
    handed on to it: it raises, under either spelling of the name. *)
Lemma getattr_strides_raises :
  heap ex_world !! 0%nat = Some ex_placeholder
  ∧ Tensor_getattr (metatensor ex_placeholder) "stride"
    = Ok (VBoundMethod (metatensor ex_placeholder) "stride")
  ∧ (__getattr__ 0%nat "stride" ex_world).1
    ≠ Tensor_getattr (metatensor ex_placeholder) "stride"
  ∧ (∃ msg, (__getattr__ 0%nat "stride" ex_world).1
            = Raise (AttributeError msg))
  ∧ (∃ msg, (__getattr__ 0%nat "strides" ex_world).1
            = Raise (AttributeError msg)).
Proof.
  split; [reflexivity|]. split; [reflexivity|]. split; [discriminate|].
  split; eexists; reflexivity.
Qed.

Lemma materialize_twice_witness :
  heap ex_world !! 0%nat = Some ex_placeholder
  ∧ heap ex_world !! loader_self (loader_of 0%nat ex_placeholder)
    = Some ex_placeholder
  ∧ (call_load_tensor 0%nat (call_load_tensor 0%nat ex_world).2).1
    = (call_load_tensor 0%nat ex_world).1
  ∧ (call_load_tensor 0%nat ex_world).1 = Ok (VTensor ex_tensor)
  ∧ reads (call_load_tensor 0%nat (call_load_tensor 0%nat ex_world).2).2
    = [mkRead "data/0" 8; mkRead "data/0" 8].
Proof.
  assert (E1 : heap ex_world !! 0%nat = Some ex_placeholder) by reflexivity.
  assert (E2 : heap ex_world !! loader_self (loader_of 0%nat ex_placeholder)
               = Some ex_placeholder) by reflexivity.
  destruct (materialize_twice 0%nat ex_placeholder ex_placeholder ex_world
              E1 E2) as (Hsame & _ & _ & _ & _ & Hreads).
  split; [exact E1|]. split; [exact E2|]. split; [exact Hsame|]. split.
  - reflexivity.
  - rewrite Hreads. reflexivity.
Defined.



Lemma warnings_silenced_around_storage_witness :
  heap (ex_world (runtime:=noisy)) !! 0%nat = Some ex_placeholder
  ∧ filters (_load_tensor (runtime:=noisy) 0%nat (ex_world (runtime:=noisy))).2 = []
  ∧ shown (persistent_load (runtime:=noisy) ex_pid empty_world).2 = [].
Proof.
  assert (E1 : heap (ex_world (runtime:=noisy)) !! 0%nat = Some ex_placeholder)
    by reflexivity.
  destruct (warnings_silenced_around_storage (runtime:=noisy) 0%nat ex_placeholder
              (ex_world (runtime:=noisy)) E1) as (Hfilters & _ & _ & Hpersistent).
  split; [exact E1|]. split; [exact Hfilters|].
  exact (proj1 (Hpersistent ex_pid empty_world)).
Defined.

(** C10 as stated fails: [persistent_load] silences warnings too.  Its two
    library calls emit warnings that the filters in force would show, and
    none of them is shown. *)
Lemma persistent_load_silences_warnings :
  let emitted := emits (TorchRuntime:=noisy) (call_storage_cls FloatStorage)
                 ++ emits (TorchRuntime:=noisy) call_TypedStorage_meta in
  let out := persistent_load (runtime:=noisy) ex_pid empty_world in
  audible (filters empty_world) emitted
  = [mkWarning UserWarning "TypedStorage is deprecated";
     mkWarning UserWarning "TypedStorage is deprecated"]
  ∧ shown out.2 = []
  ∧ shown out.2 ≠ shown empty_world ++ audible (filters empty_world) emitted.
Proof.
  split; [reflexivity|]. split; [reflexivity|]. discriminate.
Qed.

(** A placeholder whose record is not in the archive: the request is sent,
    the reader's error comes back, and nothing else has changed. *)
Example missing_record_raises :
  let w := (ex_build ex_missing_pid ex_tail empty_world).2 in
  let out := call_load_tensor 0%nat w in
  out.1 = Raise (RuntimeError "record not found")
  ∧ reads out.2 = [mkRead "data/7" 8]
  ∧ heap out.2 = heap w.
Proof. repeat split. Qed.

(** ** Concrete runs of the further properties *)

Lemma hooks_keep_heap_ok_witness :
  heap_ok (heap ex_world)
  ∧ heap_ok (heap (rebuild_parameter (VNotYetLoaded 0%nat) true [] ex_world).2)
  ∧ reads (call_load_tensor 0%nat ex_world).2 = [mkRead "data/0" 8].
Proof.
  assert (Hok : heap_ok (heap ex_world)).
  { split.
    - intros p o E. destruct p as [|p]; [by injection E as <-|].
      by destruct p.
    - repeat constructor. }
  destruct (hooks_keep_heap_ok ex_world Hok) as (_ & Hparam & _ & _ & Hreads).
  split; [exact Hok|]. split; [apply Hparam|].
  rewrite (Hreads 0%nat ex_placeholder eq_refl). reflexivity.
Defined.

Lemma parameter_hook_keeps_metadata_witness :
  heap ex_world !! 0%nat = Some ex_placeholder
  ∧ (__getattr__ 0%nat "requires_grad"
       (rebuild_parameter (VNotYetLoaded 0%nat) true [] ex_world).2).1
    = Ok (VBool false)
  ∧ (call_load_tensor 0%nat
       (rebuild_parameter (VNotYetLoaded 0%nat) true [] ex_world).2).1
    = Ok (VTensor (make_parameter ex_tensor true [])).
Proof.
  assert (E : heap ex_world !! 0%nat = Some ex_placeholder) by reflexivity.
  destruct (parameter_hook_keeps_metadata 0%nat ex_placeholder true []
              ex_world E) as (_ & Hflag & _).
  split; [exact E|]. split; [rewrite Hflag; reflexivity|reflexivity].
Defined.

Lemma getattr_contiguous_materializes_witness :
  heap ex_world !! 0%nat = Some ex_placeholder
  ∧ loader_self (loader_of 0%nat ex_placeholder) = 0%nat
  ∧ (__getattr__ 0%nat "contiguous" ex_world).1
    = Ok (VBoundMethod ex_tensor "contiguous")
  ∧ reads (__getattr__ 0%nat "contiguous" ex_world).2 = [mkRead "data/0" 8].
Proof.
  assert (E : heap ex_world !! 0%nat = Some ex_placeholder) by reflexivity.
  assert (Hself : loader_self (loader_of 0%nat ex_placeholder) = 0%nat)
    by reflexivity.
  destruct (getattr_contiguous_materializes 0%nat ex_placeholder ex_world
              E Hself) as (Hreads & _ & _ & Hvalue & _).
  split; [exact E|]. split; [exact Hself|]. split.
  - rewrite Hvalue. reflexivity.
  - rewrite Hreads. reflexivity.
Defined.

(** A placeholder inside a list argument reaches the operation as it is. *)
Lemma torch_function_passes_nested_witness :
  placeholder_args [VList [VNotYetLoaded 0%nat]; VInt 1] = []
  ∧ __torch_function__ ex_echo [] [VList [VNotYetLoaded 0%nat]; VInt 1] None
      ex_world
    = (Ok (VTuple [VList [VList [VNotYetLoaded 0%nat]; VInt 1]; VDict []]),
       ex_world).
Proof.
  assert (E : placeholder_args [VList [VNotYetLoaded 0%nat]; VInt 1] = [])
    by reflexivity.
  split; [exact E|].
  rewrite (torch_function_passes_nested ex_echo []
             [VList [VNotYetLoaded 0%nat]; VInt 1] None ex_world E).
  reflexivity.
Defined.

(** A list with a placeholder and with a set that holds the same
    placeholder: the first is loaded, the second stays. *)
Lemma materialize_tensors_idempotent_witness :
  let c := VList [VNotYetLoaded 0%nat; VSet [VNotYetLoaded 0%nat]] in
  let c' := VList [VTensor ex_tensor; VSet [VNotYetLoaded 0%nat]] in
  let w' := (_materialize_tensors c ex_world).2 in
  _materialize_tensors c ex_world = (Ok c', w')
  ∧ placeholders c' = []
  ∧ unreached c' = [0%nat]
  ∧ _materialize_tensors c' w' = (Ok c', w').
Proof.
  intros c c' w'.
  assert (E : _materialize_tensors c ex_world = (Ok c', w')) by reflexivity.
  split; [exact E|].
  destruct (materialize_tensors_idempotent c c' ex_world w' E)
    as (Hnone & Hkept & Hagain).
  split; [exact Hnone|]. split; [rewrite Hkept; reflexivity|exact Hagain].
Defined.

(** The second of three placeholders has no record: the third is not
    asked for. *)
Lemma materialize_tensors_first_failure_witness :
  let w := (unpickle_state_dict (lazy_unpickler ex_unpickler) ex_broken_dict
              empty_world).2 in
  let c := VList [VNotYetLoaded 0%nat; VNotYetLoaded 1%nat; VNotYetLoaded 2%nat] in
  rebuildable c = true
  ∧ placeholders c = [0%nat] ++ 1%nat :: [2%nat]
  ∧ Forall (λ q, is_Ok (call_load_tensor q w).1) [0%nat]
  ∧ (call_load_tensor 1%nat w).1 = Raise (RuntimeError "record not found")
  ∧ (_materialize_tensors c w).1 = Raise (RuntimeError "record not found")
  ∧ reads (_materialize_tensors c w).2
    = [mkRead "data/0" 8; mkRead "data/7" 8].
Proof.
  intros w c.
  assert (E0 : rebuildable c = true) by reflexivity.
  assert (E1 : placeholders c = [0%nat] ++ 1%nat :: [2%nat]) by reflexivity.
  assert (E2 : Forall (λ q, is_Ok (call_load_tensor q w).1) [0%nat]).
  { constructor; [|constructor]. exists (VTensor ex_tensor). reflexivity. }
  assert (E3 : (call_load_tensor 1%nat w).1
               = Raise (RuntimeError "record not found")) by reflexivity.
  destruct (materialize_tensors_first_failure c w [0%nat] 1%nat [2%nat]
              (RuntimeError "record not found") E0 E1 E2 E3) as (Hv & Hr & _).
  split; [exact E0|]. split; [exact E1|]. split; [exact E2|].
  split; [exact E3|]. split; [exact Hv|]. rewrite Hr. reflexivity.
Defined.

(** The parameter of a subclass tensor of [ex_call]: its placeholder runs
    the subclass rebuild and then the parameter rebuild on the tensor read
    from [data/0]. *)
Lemma lazy_unpickle_replays_calls_witness :
  let out := unpickle (lazy_unpickler ex_unpickler) ex_call empty_world in
  out.1 = Ok (VNotYetLoaded 0%nat)
  ∧ call_load_tensor 0%nat out.2
    = (let* t := (let* t0 := _load_tensor 0%nat in
                  torch_rebuild_from_type_v2 (λ _, ret t0) (SubclassT "My") []
                    ex_state) in
       torch_rebuild_parameter t true []) out.2
  ∧ reads (call_load_tensor 0%nat out.2).2 = [mkRead "data/0" 8].
Proof.
  intros out. subst out.
  assert (E : (unpickle (lazy_unpickler ex_unpickler) ex_call empty_world).1
              = Ok (VNotYetLoaded 0%nat)) by reflexivity.
  destruct (lazy_unpickle_replays_calls ex_unpickler ex_call empty_world
              0%nat E) as (Hrun & Hreads & _).
  split; [exact E|]. split; [exact Hrun|]. rewrite Hreads. reflexivity.
Defined.


(** A state dict whose second entry asks for gradients on integers: the
    library refuses its meta tensor, the first entry has its placeholder,
    and nothing has been read. *)
Example lazy_state_dict_refused :
  let items := [("a", CTensor ex_pid ex_args);
                ("b", CTensor (mkPid "storage" LongStorage "0" "cpu" 1)
                        (mkRebuildArgs 0 [1] [1] true [] None));
                ("c", CTensor ex_pid ex_args)] in
  let out := unpickle_state_dict (lazy_unpickler ex_unpickler) items
               empty_world in
  (∃ e, first_refused items = Some (1%nat, e) ∧ out.1 = Raise e)
  ∧ length (heap out.2) = 1%nat
  ∧ reads out.2 = [].
Proof. split; [eexists; split; reflexivity|]. split; reflexivity. Qed.
